(** * RFM customer segmentation: the clustering core of [rfm.py]

    A shallow embedding of [get_numero_otimo_clusters], [calcular_wcss],
    [build_rfm_features] and [cluster_rfm_joint].

    Python [float] is IEEE binary64, which is Rocq's primitive [float];
    Python [int] is [Z].  Exceptions are explicit: every fallible operation
    returns a [result]. *)

From Stdlib Require Import String ZArith List Bool Lia Floats.
From Stdlib Require Import QArith Qround Qabs Lqa.
From Stdlib Require Import Permutation Sorted DecimalString.
Import ListNotations.
Local Open Scope Z_scope.

(** ** Exceptions and results *)

Inductive exn : Type :=
| IndexError
| KeyError (key : string)
| ValueError (msg : string)
| TypeError
| OverflowError
| ZeroDivisionError.

Inductive result (A : Type) : Type :=
| Ok (a : A)
| Raise (e : exn).

Arguments Ok {A} a.
Arguments Raise {A} e.

Definition bind {A B : Type} (r : result A) (k : A -> result B) : result B :=
  match r with
  | Ok a => k a
  | Raise e => Raise e
  end.

Notation "x <- r ;; k" := (bind r (fun x => k))
  (at level 61, r at next level, right associativity).
Notation "' p <- r ;; k" := (bind r (fun x => let 'p := x in k))
  (at level 61, p pattern, r at next level, right associativity).

(** ** Python float arithmetic *)

Module Py.

(** [int -> float] as CPython converts the integer operand of a mixed
    operation: the nearest double, ties to even.  An integer of machine size
    is converted directly and always fits; a larger one raises
    [OverflowError] when it is out of the range of a double. *)
Definition float_of_int (z : Z) : result float :=
  if Z.abs z <? 2 ^ 63 then
    let f := of_uint63 (Uint63.of_Z (Z.abs z)) in
    Ok (if z <? 0 then (- f)%float else f)
  else
    let f := SF2Prim (binary_normalize prec emax z 0 false) in
    if is_infinity f then Raise OverflowError else Ok f.

(** [v ** 2] on a float: the product [v * v]; a finite [v] whose square is
    out of range raises [OverflowError], an infinite or NaN [v] does not. *)
Definition pow2 (v : float) : result float :=
  let r := (v * v)%float in
  if is_infinity r && negb (is_infinity v) then Raise OverflowError else Ok r.

(** [math.sqrt]: [ValueError] on a negative argument. *)
Definition math_sqrt (v : float) : result float :=
  if (v <? 0)%float then Raise (ValueError "math domain error")
  else Ok (PrimFloat.sqrt v).

(** [a / b] on floats: [ZeroDivisionError] when [b == 0.0]. *)
Definition truediv (a b : float) : result float :=
  if (b =? 0)%float then Raise ZeroDivisionError else Ok (a / b)%float.

End Py.

(** ** numpy: argmax over a float64 array *)

(** The loop of numpy's float [argmax]: the first occurrence of the maximum,
    and a NaN, once met, is the maximum. *)
Fixpoint argmax_loop (mp : float) (max_ind i : nat) (ip : list float) : nat :=
  match ip with
  | [] => max_ind
  | x :: ip' =>
      if negb (x <=? mp)%float then
        if is_nan x then i else argmax_loop x i (S i) ip'
      else argmax_loop mp max_ind (S i) ip'
  end.

Definition np_argmax (a : list float) : result nat :=
  match a with
  | [] => Raise (ValueError "attempt to get argmax of an empty sequence")
  | mp :: ip => Ok (if is_nan mp then 0%nat else argmax_loop mp 0 1 ip)
  end.

(** ** The Knee Selector *)

(** One iteration of the loop of [get_numero_otimo_clusters]: the distance of
    the point [(x0, y0)] to the chord from [(x1, y1)] to [(x2, y2)]. *)
Definition distancia (x1 : Z) (y1 : float) (x2 : Z) (y2 : float)
    (x0 : Z) (y0 : float) : result float :=
  fx0 <- Py.float_of_int x0 ;;
  fdx <- Py.float_of_int (x2 - x1) ;;
  fx2 <- Py.float_of_int x2 ;;
  fx1 <- Py.float_of_int x1 ;;
  let numerador :=
    abs ((y2 - y1) * fx0 - fdx * y0 + fx2 * y1 - y2 * fx1)%float in
  sq <- Py.pow2 (y2 - y1)%float ;;
  fdx2 <- Py.float_of_int ((x2 - x1) ^ 2) ;;
  denominador <- Py.math_sqrt (sq + fdx2)%float ;;
  Py.truediv numerador denominador.

(** [for i, y0 in enumerate(wcss)], started at index [i]. *)
Fixpoint distancias_from (x1 : Z) (y1 : float) (x2 : Z) (y2 : float)
    (k_min : Z) (i : nat) (wcss : list float) : result (list float) :=
  match wcss with
  | [] => Ok []
  | y0 :: rest =>
      d <- distancia x1 y1 x2 y2 (k_min + Z.of_nat i) y0 ;;
      ds <- distancias_from x1 y1 x2 y2 k_min (S i) rest ;;
      Ok (d :: ds)
  end.

(** The list [distancias] the loop builds; [wcss[0]] raises [IndexError] on
    an empty list. *)
Definition distancias (wcss : list float) (k_min k_max : Z)
    : result (list float) :=
  match wcss with
  | [] => Raise IndexError
  | y1 :: _ =>
      let y2 := last wcss y1 in
      distancias_from k_min y1 k_max y2 k_min 0 wcss
  end.

Definition get_numero_otimo_clusters (wcss : list float) (k_min k_max : Z)
    : result Z :=
  ds <- distancias wcss k_min k_max ;;
  i <- np_argmax ds ;;
  Ok (k_min + Z.of_nat i).


(** numpy orders floats with NaN above every number ([argmax], [sort]). *)
Definition np_le (x y : float) : bool := is_nan y || (x <=? y)%float.

(** The exceptions the float arithmetic of the Knee Selector can raise. *)
Definition arithmetic_exn (e : exn) : Prop :=
  e = OverflowError \/ e = ZeroDivisionError \/
  e = ValueError "math domain error".

(** The distance formula, read on the values of a run that raised nothing:
    [d] is |(y2-y1)*x0 - (x2-x1)*y0 + x2*y1 - y2*x1| over
    sqrt((y2-y1)^2 + (x2-x1)^2), the integers converted to doubles. *)
Definition chord_distance (x1 : Z) (y1 : float) (x2 : Z) (y2 : float)
    (x0 : Z) (y0 : float) (d : float) : Prop :=
  exists fx0 fdx fx2 fx1 fdx2,
    Py.float_of_int x0 = Ok fx0 /\
    Py.float_of_int (x2 - x1) = Ok fdx /\
    Py.float_of_int x2 = Ok fx2 /\
    Py.float_of_int x1 = Ok fx1 /\
    Py.float_of_int ((x2 - x1) ^ 2) = Ok fdx2 /\
    d = (abs ((y2 - y1) * fx0 - fdx * y0 + fx2 * y1 - y2 * fx1)
         / PrimFloat.sqrt ((y2 - y1) * (y2 - y1) + fdx2))%float.

(** [i] is the first index of a maximum of [l] in numpy's order. *)
Definition first_max (l : list float) (i : nat) : Prop :=
  exists d, nth_error l i = Some d /\
    (forall j dj, nth_error l j = Some dj -> np_le dj d = true) /\
    (forall j dj, (j < i)%nat -> nth_error l j = Some dj -> np_le d dj = false).


(** ** Magnitudes of doubles *)

(** Classes of doubles, read on the sign, mantissa and exponent of the value:
    not negative, not negative and not zero (a NaN is let through in both),
    and zero or finite with at most [D] binary digits above the binary
    point, that is of magnitude below [2 ^ D]. *)
Definition SFnonneg (s : spec_float) : Prop :=
  match s with
  | S754_zero false | S754_finite false _ _ | S754_infinity false
  | S754_nan => True
  | _ => False
  end.

Definition SFpositive (s : spec_float) : Prop :=
  match s with
  | S754_finite false _ _ | S754_infinity false | S754_nan => True
  | _ => False
  end.

Definition SFbelow (D : Z) (s : spec_float) : Prop :=
  match s with
  | S754_zero _ => True
  | S754_finite _ m e => Z.pos (digits2_pos m) + e <= D
  | _ => False
  end.

(** Inputs of moderate size: a range within [[-2^30, 2^30]] and WCSS values
    of magnitude at most [2^500]. *)
Definition wcss_bound : float := 0x1p500%float.

Definition moderate_inputs (wcss : list float) (k_min k_max : Z) : bool :=
  (- 2 ^ 30 <=? k_min) && (k_max <=? 2 ^ 30) &&
  forallb (fun y => (abs y <=? wcss_bound)%float) wcss.


(** ** Tables *)

(** A cell of a table.  [VDec] is a decimal number kept exactly: it is used
    for [PctBase], a ratio of two integer counts rounded to four places, of
    which the code stores the nearest double. *)
Inductive cell : Type :=
| VInt (z : Z)
| VFloat (f : float)
| VStr (s : string)
| VDec (q : Q).

Definition column := list cell.

(** A [DataFrame] over the default index: its columns in order, by name. *)
Definition DataFrame := list (string * column).

Definition columns (df : DataFrame) : list string := map fst df.

Definition nrows (df : DataFrame) : nat :=
  match df with
  | [] => 0%nat
  | (_, c) :: _ => length c
  end.

Definition has_col (name : string) (df : DataFrame) : bool :=
  existsb (String.eqb name) (columns df).

(** [df[name]] *)
Fixpoint get_col (name : string) (df : DataFrame) : result column :=
  match df with
  | [] => Raise (KeyError name)
  | (n, c) :: df' => if String.eqb name n then Ok c else get_col name df'
  end.

Fixpoint replace_col (name : string) (c : column) (df : DataFrame)
    : DataFrame :=
  match df with
  | [] => []
  | (n, c0) :: df' =>
      if String.eqb name n then (n, c) :: df'
      else (n, c0) :: replace_col name c df'
  end.

Definition length_mismatch : exn :=
  ValueError "Length of values does not match length of index".

(** [df[name] = c]: an existing column is replaced in place, a new one is
    appended; the values must be as many as the rows. *)
Definition set_col (name : string) (c : column) (df : DataFrame)
    : result DataFrame :=
  if negb (length c =? nrows df)%nat then Raise length_mismatch
  else if has_col name df then Ok (replace_col name c df)
  else Ok (df ++ [(name, c)]).

(** [df[names]] *)
Fixpoint select (names : list string) (df : DataFrame) : result DataFrame :=
  match names with
  | [] => Ok []
  | n :: names' =>
      c <- get_col n df ;;
      rest <- select names' df ;;
      Ok ((n, c) :: rest)
  end.

(** [df.drop(columns=names, errors="ignore")] *)
Definition drop (names : list string) (df : DataFrame) : DataFrame :=
  filter (fun p => negb (existsb (String.eqb (fst p)) names)) df.

Fixpoint traverse {A B : Type} (f : A -> result B) (l : list A)
    : result (list B) :=
  match l with
  | [] => Ok []
  | a :: l' => b <- f a ;; bs <- traverse f l' ;; Ok (b :: bs)
  end.

(** A cell as a float64 ([astype(float)], [.values] of numeric columns). *)
Definition cell_float (v : cell) : result float :=
  match v with
  | VInt z => Py.float_of_int z
  | VFloat f => Ok f
  | VStr _ | VDec _ => Raise TypeError
  end.

Definition cell_int (v : cell) : result Z :=
  match v with
  | VInt z => Ok z
  | _ => Raise TypeError
  end.

(** Unary minus on a column. *)
Definition cell_neg (v : cell) : result cell :=
  match v with
  | VInt z => Ok (VInt (- z))
  | VFloat f => Ok (VFloat (- f))
  | VStr _ | VDec _ => Raise TypeError
  end.

(** pandas' [notna]: a NaN is a missing value. *)
Definition notna (v : cell) : bool :=
  match v with
  | VFloat f => negb (is_nan f)
  | _ => true
  end.

(** ** numpy and pandas helpers *)

(** [np.rint] on a double, ties to even. *)
Definition np_rint (x : float) : float :=
  if (abs x <? 0x1p52)%float then
    if (x =? 0)%float then x
    else if (x <? 0)%float then (x - 0x1p52 + 0x1p52)%float
    else (x + 0x1p52 - 0x1p52)%float
  else x.

(** [np.round(x, 2)]: scale, round to an integer, scale back. *)
Definition np_round2 (x : float) : float := (np_rint (x * 100) / 100)%float.

(** Rounding of an exact number to the nearest integer, ties to even. *)
Definition round_half_even (q : Q) : Z :=
  let f := Qfloor q in
  match Qcompare (q - inject_Z f) (1 # 2) with
  | Lt => f
  | Gt => f + 1
  | Eq => if Z.even f then f else f + 1
  end.

(** [round(4)] of an exact number: scale by 10^4, round, scale back. *)
Definition round4 (q : Q) : Q :=
  Qmake (round_half_even (q * inject_Z 10000)) 10000.

(** [Xs.sum(axis=1)] on one row of the feature matrix. *)
Definition row_sum (x : float * float * float) : float :=
  let '(r, f, m) := x in (r + f + m)%float.

(** Stable insertion of [x] in a list sorted by [le]. *)
Fixpoint insert {A : Type} (le : A -> A -> bool) (x : A) (l : list A)
    : list A :=
  match l with
  | [] => [x]
  | y :: l' => if le x y then x :: l else y :: insert le x l'
  end.

(** A stable sort: among equal keys the order of the input is kept. *)
Definition sort_by {A : Type} (le : A -> A -> bool) (l : list A) : list A :=
  fold_right (insert le) [] l.

(** The keys of a [groupby] on an integer column: distinct and ascending. *)
Definition group_keys (keys : list Z) : list Z :=
  sort_by Z.leb (nodup Z.eq_dec keys).

(** The cells of column [c] in the rows whose key is [g]. *)
Definition group_of {A : Type} (g : Z) (keys : list Z) (c : list A)
    : list A :=
  map snd (filter (fun p => Z.eqb (fst p) g) (combine keys c)).

(** [np.arange(n)] *)
Definition arange (n : nat) : list Z := map Z.of_nat (seq 0 n).

Definition ends_with (suffix s : string) : bool :=
  let n := String.length s in
  let m := String.length suffix in
  (m <=? n)%nat && String.eqb (substring (n - m) m s) suffix.

Definition contains (sub s : string) : bool :=
  match index 0 sub s with
  | Some _ => true
  | None => false
  end.

(** [df.sort_values(by, ascending=True).reset_index(drop=True)] on a float
    column: ascending, NaN last; every column is reordered alike. *)
Definition sort_values (by_ : string) (df : DataFrame) : result DataFrame :=
  kc <- get_col by_ df ;;
  keys <- traverse cell_float kc ;;
  let le (a b : float * cell) := np_le (fst a) (fst b) in
  Ok (map (fun '(n, c) => (n, map snd (sort_by le (combine keys c)))) df).

(** [left.merge(right, on=key, how="left")] on an integer key.  Each row of
    [left], in order, is paired with the rows of [right] of the same key, or
    once with missing values when there is none.  A column name on both
    sides gets the suffixes [_x] and [_y]. *)
Definition merge_left (left right : DataFrame) (on : string)
    : result DataFrame :=
  lc <- get_col on left ;;
  lk <- traverse cell_int lc ;;
  rc <- get_col on right ;;
  rk <- traverse cell_int rc ;;
  let right' := drop [on] right in
  let matches (k : Z) := length (filter (Z.eqb k) rk) in
  let expand_left (c : column) : column :=
    flat_map (fun '(k, v) => repeat v (Nat.max 1 (matches k)))
             (combine lk c) in
  let expand_right (c : column) : column :=
    flat_map (fun k => match group_of k rk c with
                       | [] => [VFloat nan]
                       | vs => vs
                       end) lk in
  let clash (n : string) :=
    negb (String.eqb n on) && has_col n left && has_col n right' in
  Ok (map (fun '(n, c) =>
             ((if clash n then n ++ "_x" else n)%string, expand_left c)) left
      ++
      map (fun '(n, c) =>
             ((if clash n then n ++ "_y" else n)%string, expand_right c))
          right').

(** ** The numerical libraries the code calls *)

Definition matrix := list (float * float * float).

(** A fitted [KMeans] estimator, as far as the code reads it. *)
Record KMeans : Type := {
  labels_ : list Z;
  inertia_ : float
}.

(** numpy, scikit-learn and pandas routines taken as given: they are not
    code of this repository.  [KMeans_fit n_clusters n_init random_state X]
    is [KMeans(n_clusters, n_init, random_state).fit(X)], with [n_init = None]
    for ["auto"]. *)
Class Libraries : Type := {
  np_log1p : float -> float;
  StandardScaler_fit_transform : matrix -> result matrix;
  KMeans_fit : Z -> option Z -> Z -> matrix -> result KMeans;
  agg_mean : list float -> float;
  agg_median : list float -> float
}.

(** ** The pipeline *)

(** One customer of the table [build_rfm_table] returns. *)
Record RFMRow : Type := {
  Cliente : string;
  Recencia : Z;
  Frequencia : Z;
  Receita : float
}.

(** The RFM table as a [DataFrame]. *)
Definition rfm_frame (rows : list RFMRow) : DataFrame :=
  [ ("Cliente"%string, map (fun r => VStr (Cliente r)) rows);
    ("Recencia"%string, map (fun r => VInt (Recencia r)) rows);
    ("Frequencia"%string, map (fun r => VInt (Frequencia r)) rows);
    ("Receita"%string, map (fun r => VFloat (Receita r)) rows) ].

Section Pipeline.

Context {libs : Libraries}.

Definition cell_log1p (v : cell) : result cell :=
  f <- cell_float v ;; Ok (VFloat (np_log1p f)).

(** [out[["R_inv", "F_log", "M_log"]].values] *)
Definition feature_values (out : DataFrame) : result matrix :=
  r <- get_col "R_inv" out ;; r <- traverse cell_float r ;;
  f <- get_col "F_log" out ;; f <- traverse cell_float f ;;
  m <- get_col "M_log" out ;; m <- traverse cell_float m ;;
  Ok (combine (combine r f) m).

Definition build_rfm_features (rfm : DataFrame)
    : result (matrix * DataFrame) :=
  let out := rfm in
  rec <- get_col "Recencia" out ;;
  r_inv <- traverse cell_neg rec ;;
  out <- set_col "R_inv" r_inv out ;;
  freq <- get_col "Frequencia" out ;;
  f_log <- traverse cell_log1p freq ;;
  out <- set_col "F_log" f_log out ;;
  rev <- get_col "Receita" out ;;
  m_log <- traverse cell_log1p rev ;;
  out <- set_col "M_log" m_log out ;;
  X <- feature_values out ;;
  Xs <- StandardScaler_fit_transform X ;;
  Ok (Xs, out).

(** [for k in range(k_min, k_max + 1)], with [n] values of [k] left. *)
Fixpoint wcss_loop (Xs : matrix) (random_state : Z) (k : Z) (n : nat)
    : result (list float) :=
  match n with
  | O => Ok []
  | S n' =>
      km <- KMeans_fit k (Some 20) random_state Xs ;;
      rest <- wcss_loop Xs random_state (k + 1) n' ;;
      Ok (inertia_ km :: rest)
  end.

Definition calcular_wcss (Xs : matrix) (k_min k_max random_state : Z)
    : result (list float) :=
  wcss_loop Xs random_state k_min (Z.to_nat (k_max + 1 - k_min)).

(** The aggregated rows of the groups [gs]: one row per key, with the
    columns of [.agg(...)] after [reset_index()], for the reductions [mean]
    and [median]. *)
Definition aggregate (mean median : list float -> float) (keys : list Z)
    (cli : column) (rec freq rev sc : list float) (gs : list Z)
    : DataFrame :=
  let agg (f : list float -> float) (c : list float) : column :=
    map (fun g => VFloat (f (group_of g keys c))) gs in
  [ ("ClusterId"%string, map VInt gs);
    ("Clientes"%string,
     map (fun g =>
            VInt (Z.of_nat (length (filter notna (group_of g keys cli)))))
         gs);
    ("Recencia_media"%string, agg mean rec);
    ("Recencia_mediana"%string, agg median rec);
    ("Frequencia_media"%string, agg mean freq);
    ("Frequencia_mediana"%string, agg median freq);
    ("Receita_media"%string, agg mean rev);
    ("Receita_mediana"%string, agg median rev);
    ("ScoreComposto_medio"%string, agg mean sc) ].

(** [enriched.groupby("ClusterId").agg(...).reset_index()] *)
Definition cluster_profile (enriched : DataFrame) : result DataFrame :=
  kc <- get_col "ClusterId" enriched ;;
  keys <- traverse cell_int kc ;;
  cli <- get_col "Cliente" enriched ;;
  rec <- get_col "Recencia" enriched ;; rec <- traverse cell_float rec ;;
  freq <- get_col "Frequencia" enriched ;; freq <- traverse cell_float freq ;;
  rev <- get_col "Receita" enriched ;; rev <- traverse cell_float rev ;;
  sc <- get_col "ScoreComposto" enriched ;; sc <- traverse cell_float sc ;;
  Ok (aggregate agg_mean agg_median keys cli rec freq rev sc
        (group_keys keys)).

(** The profile once ordered and ranked, before the rounding for display:
    [sort_values], [RankQualidade] and [PctBase]. *)
Definition ranked_profile (enriched : DataFrame) : result DataFrame :=
  prof <- cluster_profile enriched ;;
  prof <- sort_values "ScoreComposto_medio" prof ;;
  prof <- set_col "RankQualidade" (map VInt (arange (nrows prof))) prof ;;
  cl <- get_col "Clientes" prof ;;
  cl <- traverse cell_int cl ;;
  let total := fold_right Z.add 0%Z cl in
  set_col "PctBase"
    (map (fun c => VDec (round4 (inject_Z c / inject_Z total))) cl) prof.

Definition display_col (c : string) : bool :=
  ends_with "_media" c || ends_with "_mediana" c
  || contains "ScoreComposto" c.

Definition round_cell (v : cell) : result cell :=
  f <- cell_float v ;; Ok (VFloat (np_round2 f)).

(** [prof_display]: the mean, median and score columns rounded to 2 places. *)
Fixpoint round_display (prof : DataFrame) : result DataFrame :=
  match prof with
  | [] => Ok []
  | (n, c) :: prof' =>
      c' <- (if display_col n then traverse round_cell c else Ok c) ;;
      rest <- round_display prof' ;;
      Ok ((n, c') :: rest)
  end.

Definition cols : list string :=
  ["Cliente"; "Recencia"; "Frequencia"; "Receita"; "ClusterId";
   "RankQualidade"; "ScoreComposto"]%string.

(** The first half of [cluster_rfm_joint]: the features, the fit, and the
    columns [ClusterId] and [ScoreComposto]. *)
Definition assign_clusters (rfm : DataFrame) (n_clusters random_state : Z)
    : result (matrix * DataFrame) :=
  '(Xs, enriched) <- build_rfm_features rfm ;;
  km <- KMeans_fit n_clusters None random_state Xs ;;
  let cluster_id := labels_ km in
  enriched <- set_col "ClusterId" (map VInt cluster_id) enriched ;;
  enriched <- set_col "ScoreComposto"
                (map (fun x => VFloat (row_sum x)) Xs) enriched ;;
  Ok (Xs, enriched).

Definition cluster_rfm_joint (rfm : DataFrame) (n_clusters random_state : Z)
    : result (DataFrame * DataFrame) :=
  '(_, enriched) <- assign_clusters rfm n_clusters random_state ;;
  prof <- ranked_profile enriched ;;
  ranks <- select ["ClusterId"; "RankQualidade"]%string prof ;;
  enriched <- merge_left enriched ranks "ClusterId" ;;
  let enriched := drop ["R_inv"; "F_log"; "M_log"]%string enriched in
  enriched <- select cols enriched ;;
  prof_display <- round_display prof ;;
  Ok (enriched, prof_display).

End Pipeline.

(** ** The tables of a run on an RFM table *)

Section Frames.

Context {libs : Libraries}.

Variable rows : list RFMRow.

(** [freq] is the column [Frequencia] as doubles. *)
Variable freq : list float.

(** The table [build_rfm_features] returns. *)
Definition features_frame : DataFrame :=
  rfm_frame rows ++
  [ ("R_inv"%string, map (fun r => VInt (- Recencia r)) rows);
    ("F_log"%string, map (fun f => VFloat (np_log1p f)) freq);
    ("M_log"%string, map (fun r => VFloat (np_log1p (Receita r))) rows) ].

(** The feature matrix before standardization, [r_inv] being the column
    [R_inv] as doubles. *)
Definition features_matrix (r_inv : list float) : matrix :=
  combine (combine r_inv (map np_log1p freq))
          (map (fun r => np_log1p (Receita r)) rows).

Variable cluster_id : list Z.
Variable Xs : matrix.

(** The table at the end of [assign_clusters]. *)
Definition enriched_frame : DataFrame :=
  features_frame ++
  [ ("ClusterId"%string, map VInt cluster_id);
    ("ScoreComposto"%string, map (fun x => VFloat (row_sum x)) Xs) ].

(** [rec] is the column [Recencia] as doubles. *)
Variable rec : list float.

Definition score_mean (g : Z) : float :=
  agg_mean (group_of g cluster_id (map row_sum Xs)).

(** The clusters from the lowest mean score to the highest. *)
Definition ranked_keys : list Z :=
  sort_by (fun g h => np_le (score_mean g) (score_mean h))
          (group_keys cluster_id).

Definition clientes (g : Z) : Z :=
  Z.of_nat (length (filter notna
    (group_of g cluster_id (map (fun r => VStr (Cliente r)) rows)))).

(** The ranked profile, for the reductions [mean] and [median]. *)
Definition profile_frame (mean median : list float -> float) : DataFrame :=
  let total := fold_right Z.add 0%Z (map clientes ranked_keys) in
  aggregate mean median cluster_id (map (fun r => VStr (Cliente r)) rows)
    rec freq (map Receita rows) (map row_sum Xs) ranked_keys ++
  [ ("RankQualidade"%string, map VInt (arange (length ranked_keys)));
    ("PctBase"%string,
     map (fun g => VDec (round4 (inject_Z (clientes g) / inject_Z total)))
         ranked_keys) ].

(** The profile [ranked_profile] returns. *)
Definition ranked_frame : DataFrame := profile_frame agg_mean agg_median.

(** The profile [cluster_rfm_joint] returns: means and medians rounded. *)
Definition display_frame : DataFrame :=
  profile_frame (fun c => np_round2 (agg_mean c))
                (fun c => np_round2 (agg_median c)).

(** [prof[["ClusterId", "RankQualidade"]]] *)
Definition ranks_frame : DataFrame :=
  [ ("ClusterId"%string, map VInt ranked_keys);
    ("RankQualidade"%string, map VInt (arange (length ranked_keys))) ].

(** The rank joined to each customer by the merge on [ClusterId]. *)
Definition joined_ranks : column :=
  flat_map (fun k =>
              match group_of k ranked_keys
                      (map VInt (arange (length ranked_keys))) with
              | [] => [VFloat nan]
              | vs => vs
              end) cluster_id.

(** The per-customer table [cluster_rfm_joint] returns. *)
Definition customers_frame : DataFrame :=
  rfm_frame rows ++
  [ ("ClusterId"%string, map VInt cluster_id);
    ("RankQualidade"%string, joined_ranks);
    ("ScoreComposto"%string, map (fun x => VFloat (row_sum x)) Xs) ].

End Frames.

(** ** What the claims speak of *)

(** The number of rows of key [g] in a key column. *)
Definition occurrences (g : Z) (keys : list Z) : nat :=
  length (filter (fun k => Z.eqb k g) keys).


(** scikit-learn refuses to fit more clusters than there are samples:
    [ValueError: n_samples=... should be >= n_clusters=...]. *)
Definition n_samples_error : exn :=
  ValueError "n_samples should be >= n_clusters".

Definition KMeans_checks_samples (libs : Libraries) : Prop :=
  forall n_clusters n_init random_state (X : matrix),
    Z.of_nat (length X) < n_clusters ->
    KMeans_fit n_clusters n_init random_state X = Raise n_samples_error.

(** [StandardScaler] returns a matrix of the shape of its input. *)
Definition scaler_keeps_rows (libs : Libraries) : Prop :=
  forall X Xs : matrix,
    StandardScaler_fit_transform X = Ok Xs -> length Xs = length X.

(** ** The run of the application (app.py) *)

Section Application.

Context {libs : Libraries}.

(** The choice of k when the form is submitted: the k of the slider in the
    manual mode ([Some k]), the knee of the WCSS curve over 2..10 in the
    automatic mode ([None]). *)
Definition chosen_k (rfm_table : DataFrame) (n_clusters : option Z)
    (random_state : Z) : result Z :=
  match n_clusters with
  | Some k => Ok k
  | None =>
      '(Xs, _) <- build_rfm_features rfm_table ;;
      wcss <- calcular_wcss Xs 2 10 random_state ;;
      get_numero_otimo_clusters wcss 2 10
  end.

(** The clustering of a submitted form: the choice of k, then the joint
    clustering with it. *)
Definition run_clustering (rfm_table : DataFrame) (n_clusters : option Z)
    (random_state : Z) : result (DataFrame * DataFrame) :=
  k <- chosen_k rfm_table n_clusters random_state ;;
  cluster_rfm_joint rfm_table k random_state.

End Application.

(** ** The labels of the clusters (llm_gemini.py) *)

(** A value [json.loads] returns.  A dict is the list of its items, looked up
    by key. *)
#[warnings="-register-all"] Inductive json : Type :=
| JNull
| JBool (b : bool)
| JInt (z : Z)
| JFloat (f : float)
| JStr (s : string)
| JList (l : list json)
| JDict (d : list (string * json)).

Definition dict_get (key : string) (d : list (string * json)) : option json :=
  match find (fun p => String.eqb key (fst p)) d with
  | Some p => Some (snd p)
  | None => None
  end.

(** [key in v], for a string [key]: a key of a dict, an element of a list, a
    substring of a string; the other values are not containers. *)
Definition py_in (key : string) (v : json) : result bool :=
  match v with
  | JDict d =>
      Ok (match dict_get key d with Some _ => true | None => false end)
  | JList l =>
      Ok (existsb (fun x => match x with
                            | JStr s => String.eqb s key
                            | _ => false
                            end) l)
  | JStr s => Ok (contains key s)
  | JNull | JBool _ | JInt _ | JFloat _ => Raise TypeError
  end.

(** [v[key]], for a string [key]: only a dict is indexed by a string. *)
Definition py_getitem (v : json) (key : string) : result json :=
  match v with
  | JDict d =>
      match dict_get key d with
      | Some x => Ok x
      | None => Raise (KeyError key)
      end
  | _ => Raise TypeError
  end.

(** [int(f)] on a float: truncation toward zero. *)
Definition float_to_int (f : float) : result Z :=
  match Prim2SF f with
  | S754_nan => Raise (ValueError "cannot convert float NaN to integer")
  | S754_infinity _ => Raise OverflowError
  | S754_zero _ => Ok 0
  | S754_finite s m e =>
      let a := Z.shiftl (Z.pos m) e in Ok (if s then - a else a)
  end.

(** Python's conversions between strings and other values, taken as given:
    the integer a string denotes for [int], if any; [str] of a value that is
    not a string; [str.strip]. *)
Class Builtins : Type := {
  int_of_str : string -> option Z;
  py_str : json -> string;
  strip : string -> string
}.

(** One row of the table of labels. *)
Record Label : Type := {
  ClusterId : Z;
  SegmentoNome : string;
  SegmentoDescricao : string;
  Estrategias : json
}.

(** [str(z)] of an integer, and the [repr] of a list of integers. *)
Definition str_int (z : Z) : string := NilZero.string_of_int (Z.to_int z).

Definition repr_ints (l : list Z) : string :=
  ("[" ++ String.concat ", " (map str_int l) ++ "]")%string.

Definition invalid_json : string :=
  "JSON inválido: chave 'clusters' ausente ou não é lista.".

Definition missing_labels (missing : list Z) : string :=
  ("LLM não retornou rótulos para ClusterId: " ++ repr_ints missing)%string.

(** [sorted(set(profile_ids) - set(label_ids))] *)
Definition missing_ids (profile_ids label_ids : list Z) : list Z :=
  sort_by Z.leb
    (filter (fun g => negb (existsb (Z.eqb g) label_ids))
            (nodup Z.eq_dec profile_ids)).

Section Labels.

Context {py : Builtins}.

(** [int(v)] *)
Definition py_int (v : json) : result Z :=
  match v with
  | JInt z => Ok z
  | JBool b => Ok (if b then 1 else 0)
  | JFloat f => float_to_int f
  | JStr s =>
      match int_of_str s with
      | Some z => Ok z
      | None => Raise (ValueError "invalid literal for int() with base 10")
      end
  | JNull | JList _ | JDict _ => Raise TypeError
  end.

(** [str(v).strip()] *)
Definition str_strip (v : json) : string :=
  strip (match v with JStr s => s | _ => py_str v end).

(** The row appended for one item of the list. *)
Definition label_row (item : json) : result Label :=
  cid <- py_getitem item "ClusterId" ;;
  cid <- py_int cid ;;
  nome <- py_getitem item "SegmentoNome" ;;
  desc <- py_getitem item "SegmentoDescricao" ;;
  Ok {| ClusterId := cid;
        SegmentoNome := str_strip nome;
        SegmentoDescricao := str_strip desc;
        Estrategias :=
          match item with
          | JDict d =>
              match dict_get "Estrategias" d with
              | Some x => x
              | None => JList []
              end
          | _ => JList []
          end |}.

(** The table of labels is the list of its rows; built from no row it has no
    column, and its [ClusterId] is a [KeyError].  The [ClusterId] of the
    profile is an integer column. *)
Definition build_cluster_labels (cluster_profile : DataFrame)
    (llm_json : json) : result (list Label) :=
  has <- py_in "clusters" llm_json ;;
  if negb has then Raise (ValueError invalid_json)
  else
    clusters <- py_getitem llm_json "clusters" ;;
    match clusters with
    | JList items =>
        rows <- traverse label_row items ;;
        let labels := rows in
        pc <- get_col "ClusterId" cluster_profile ;;
        profile_ids <- traverse cell_int pc ;;
        label_ids <- match labels with
                     | [] => Raise (KeyError "ClusterId")
                     | _ :: _ => Ok (map ClusterId labels)
                     end ;;
        match missing_ids profile_ids label_ids with
        | [] => Ok labels
        | missing => Raise (ValueError (missing_labels missing))
        end
    | _ => Raise (ValueError invalid_json)
    end.

End Labels.

(** ** Sample data *)

(** A WCSS curve for k = 2..10. *)
Definition wcss_curve : list float :=
  [100; 40; 20; 15; 12; 10; 9; 8.5; 8]%float.

(** Six customers: three recent, frequent and of high value, three not. *)
Definition sample_rows : list RFMRow :=
  [ {| Cliente := "c1"; Recencia := 1; Frequencia := 10; Receita := 1000 |};
    {| Cliente := "c2"; Recencia := 5; Frequencia := 8; Receita := 800 |};
    {| Cliente := "c3"; Recencia := 10; Frequencia := 6; Receita := 600 |};
    {| Cliente := "c4"; Recencia := 50; Frequencia := 2; Receita := 100 |};
    {| Cliente := "c5"; Recencia := 60; Frequencia := 1; Receita := 50 |};
    {| Cliente := "c6"; Recencia := 90; Frequencia := 1; Receita := 40 |} ].

Definition sample_mean (l : list float) : float :=
  (fold_left PrimFloat.add l 0
   / of_uint63 (Uint63.of_Z (Z.of_nat (length l))))%float.

(** Stand-ins for the numerical libraries, to run the pipeline on the sample:
    the features are taken as they are, the fit checks the sample count and
    splits the customers on their inverted recency, and both reductions are
    the plain mean. *)
Definition sample_libs : Libraries := {|
  np_log1p := fun x => x;
  StandardScaler_fit_transform := fun X => Ok X;
  KMeans_fit := fun n_clusters _ _ X =>
    if Z.of_nat (length X) <? n_clusters then Raise n_samples_error
    else Ok {| labels_ :=
                 map (fun '(r, _, _) => if (r <? -20)%float then 1 else 0) X;
               inertia_ := 0 |};
  agg_mean := sample_mean;
  agg_median := sample_mean
|}.

Definition sample_run : result (DataFrame * DataFrame) :=
  @cluster_rfm_joint sample_libs (rfm_frame sample_rows) 2 42.

Definition sample_enriched : DataFrame :=
  match sample_run with
  | Ok (enriched, _) => enriched
  | Raise _ => []
  end.

Definition sample_profile : DataFrame :=
  match sample_run with
  | Ok (_, prof) => prof
  | Raise _ => []
  end.

(** Stand-ins whose fit with [k] clusters has the inertia of [wcss_curve] at
    [k], whatever the number of samples. *)
Definition curve_libs : Libraries := {|
  np_log1p := fun x => x;
  StandardScaler_fit_transform := fun X => Ok X;
  KMeans_fit := fun n_clusters _ _ X =>
    Ok {| labels_ :=
            map (fun '(r, _, _) => if (r <? -20)%float then 1 else 0) X;
          inertia_ := nth (Z.to_nat (n_clusters - 2)) wcss_curve 0%float |};
  agg_mean := sample_mean;
  agg_median := sample_mean
|}.

(** Stand-ins for the conversions: [int] of a string reads plain decimal
    digits, [str] is not needed, [strip] finds nothing to strip. *)
Definition sample_builtins : Builtins := {|
  int_of_str := fun s =>
    match NilZero.int_of_string s with
    | Some d => Some (Z.of_int d)
    | None => None
    end;
  py_str := fun _ => ""%string;
  strip := fun s => s
|}.

(** An answer that names cluster 0 twice, cluster 1 once (its id as a
    string), and a cluster 7 that does not exist. *)
Definition sample_items : list json :=
  [ JDict [("ClusterId"%string, JInt 0);
           ("SegmentoNome"%string, JStr "Adormecidos");
           ("SegmentoDescricao"%string, JStr "Compraram pouco.");
           ("Estrategias"%string, JList [JStr "Reativar"])];
    JDict [("ClusterId"%string, JStr "1");
           ("SegmentoNome"%string, JStr "Frequentes");
           ("SegmentoDescricao"%string, JStr "Compram sempre.")];
    JDict [("ClusterId"%string, JInt 0);
           ("SegmentoNome"%string, JStr "Inativos");
           ("SegmentoDescricao"%string, JStr "Sem compras recentes.")];
    JDict [("ClusterId"%string, JFloat 7.5);
           ("SegmentoNome"%string, JStr "Outros");
           ("SegmentoDescricao"%string, JStr "-")] ].

Definition sample_answer : list (string * json) :=
  [("clusters"%string, JList sample_items)].

(** A table without the column Recencia. *)
Definition no_recencia : DataFrame :=
  [ ("Cliente"%string, [VStr "c1"; VStr "c2"]);
    ("Frequencia"%string, [VInt 3; VInt 1]) ].


(** An answer with a label for cluster 0 only, and one whose second item
    has no name. *)
Definition partial_answer : list (string * json) :=
  [("clusters"%string,
    JList [JDict [("ClusterId"%string, JInt 0);
                  ("SegmentoNome"%string, JStr "Adormecidos");
                  ("SegmentoDescricao"%string, JStr "Compraram pouco.")]])].

Definition nameless_answer : list (string * json) :=
  [("clusters"%string,
    JList [JDict [("ClusterId"%string, JInt 0);
                  ("SegmentoNome"%string, JStr "Adormecidos");
                  ("SegmentoDescricao"%string, JStr "Compraram pouco.")];
           JDict [("ClusterId"%string, JInt 1)]])].

(** A WCSS curve whose first value is NaN. *)
Definition nan_curve : list float := [nan; 3; 1]%float.

(** * Properties *)

(** ** Order of binary64 values *)

Section FloatOrder.

Lemma SFcompare_refl s : s <> S754_nan -> SFcompare s s = Some Eq.
Proof.
  destruct s as [b|b| |b m e]; simpl; intros H; try congruence.
  - destruct b; reflexivity.
  - rewrite Z.compare_refl.
    change (Pos.compare_cont Eq m m) with (Pos.compare m m).
    rewrite Pos.compare_refl. destruct b; reflexivity.
Qed.

Lemma SFcompare_nan_l s : SFcompare S754_nan s = None.
Proof. reflexivity. Qed.

Lemma SFcompare_nan_r s : SFcompare s S754_nan = None.
Proof. destruct s; reflexivity. Qed.

Lemma SFcompare_some a b :
  a <> S754_nan -> b <> S754_nan -> exists c, SFcompare a b = Some c.
Proof.
  destruct a, b; simpl; intros; try congruence; eauto.
Qed.

Lemma SFcompare_antisym a b :
  SFcompare b a = option_map CompOpp (SFcompare a b).
Proof.
  destruct a as [sa|sa| |sa ma ea], b as [sb|sb| |sb mb eb]; simpl;
    try reflexivity;
    try (destruct sa; reflexivity); try (destruct sb; reflexivity);
    try (destruct sa, sb; reflexivity).
  change (Pos.compare_cont Eq mb ma) with (Pos.compare mb ma).
  change (Pos.compare_cont Eq ma mb) with (Pos.compare ma mb).
  rewrite (Z.compare_antisym ea eb), (Pos.compare_antisym ma mb).
  destruct sa, sb; simpl; try reflexivity;
    destruct (ea ?= eb); simpl; try reflexivity;
    destruct (ma ?= mb)%positive; reflexivity.
Qed.

Lemma SFleb_total a b :
  a <> S754_nan -> b <> S754_nan -> SFleb a b = false -> SFleb b a = true.
Proof.
  intros Ha Hb. unfold SFleb. rewrite (SFcompare_antisym a b).
  destruct (SFcompare_some a b Ha Hb) as [c ->].
  destruct c; simpl; congruence.
Qed.

Lemma SFleb_trans a b c :
  SFleb a b = true -> SFleb b c = true -> SFleb a c = true.
Proof.
  unfold SFleb.
  destruct a as [sa|sa| |sa ma ea], b as [sb|sb| |sb mb eb],
    c as [sc|sc| |sc mc ec]; simpl;
    try discriminate; try reflexivity;
    try (destruct sa; simpl; try discriminate; try reflexivity);
    try (destruct sb; simpl; try discriminate; try reflexivity);
    try (destruct sc; simpl; try discriminate; try reflexivity).
  all: change (Pos.compare_cont Eq ma mb) with (Pos.compare ma mb);
    change (Pos.compare_cont Eq mb mc) with (Pos.compare mb mc);
    change (Pos.compare_cont Eq ma mc) with (Pos.compare ma mc).
  all: destruct (Z.compare_spec ea eb); destruct (Z.compare_spec eb ec);
    destruct (Z.compare_spec ea ec); subst; simpl;
    try discriminate; try reflexivity; try lia.
  all: destruct (Pos.compare_spec ma mb); destruct (Pos.compare_spec mb mc);
    destruct (Pos.compare_spec ma mc); subst; simpl;
    try discriminate; try reflexivity; try lia.
Qed.

Lemma is_nan_spec x : is_nan x = true <-> Prim2SF x = S754_nan.
Proof.
  unfold is_nan. rewrite FloatAxioms.eqb_spec. unfold SFeqb. split.
  - intros H. destruct (Prim2SF x) eqn:E; try reflexivity;
      rewrite SFcompare_refl in H by congruence; discriminate.
  - intros ->. reflexivity.
Qed.

Lemma is_nan_false x : is_nan x = false <-> Prim2SF x <> S754_nan.
Proof.
  rewrite <- is_nan_spec. destruct (is_nan x); split; congruence.
Qed.

Lemma leb_nan_l x y : is_nan x = true -> (x <=? y)%float = false.
Proof.
  rewrite is_nan_spec, FloatAxioms.leb_spec. intros ->. reflexivity.
Qed.

Lemma leb_nan_r x y : is_nan y = true -> (x <=? y)%float = false.
Proof.
  rewrite is_nan_spec, FloatAxioms.leb_spec. intros ->. unfold SFleb.
  now rewrite SFcompare_nan_r.
Qed.

Lemma leb_refl x : is_nan x = false -> (x <=? x)%float = true.
Proof.
  rewrite is_nan_false, FloatAxioms.leb_spec. intros H. unfold SFleb.
  now rewrite SFcompare_refl.
Qed.

Lemma leb_total x y :
  is_nan x = false -> is_nan y = false ->
  (x <=? y)%float = false -> (y <=? x)%float = true.
Proof.
  rewrite !is_nan_false, !FloatAxioms.leb_spec. apply SFleb_total.
Qed.

Lemma leb_trans x y z :
  (x <=? y)%float = true -> (y <=? z)%float = true -> (x <=? z)%float = true.
Proof. rewrite !FloatAxioms.leb_spec. apply SFleb_trans. Qed.


Lemma np_le_refl x : np_le x x = true.
Proof.
  unfold np_le. destruct (is_nan x) eqn:E; [reflexivity|].
  now rewrite leb_refl.
Qed.


Lemma np_le_trans x y z :
  np_le x y = true -> np_le y z = true -> np_le x z = true.
Proof.
  unfold np_le. intros Hxy Hyz.
  destruct (is_nan z) eqn:Hz; [reflexivity|]. simpl in *.
  destruct (is_nan y) eqn:Hy.
  - now rewrite leb_nan_l in Hyz.
  - simpl in Hxy. eapply leb_trans; eassumption.
Qed.

Lemma np_le_nan x y : is_nan y = true -> np_le x y = true.
Proof. unfold np_le. now intros ->. Qed.

Lemma np_le_leb x y : is_nan y = false -> np_le x y = (x <=? y)%float.
Proof. unfold np_le. now intros ->. Qed.

End FloatOrder.

(** ** numpy's argmax returns the first maximum *)

Section Argmax.

Lemma np_le_below_number x mp :
  is_nan mp = false -> np_le x mp = true -> is_nan x = false.
Proof.
  intros Hmp H. rewrite np_le_leb in H by assumption.
  destruct (is_nan x) eqn:E; [|reflexivity].
  now rewrite leb_nan_l in H.
Qed.

Lemma argmax_loop_first_max ip : forall pre mp max_ind,
  is_nan mp = false ->
  nth_error pre max_ind = Some mp ->
  first_max pre max_ind ->
  first_max (pre ++ ip) (argmax_loop mp max_ind (length pre) ip).
Proof.
  induction ip as [|x ip IH]; intros pre mp max_ind Hmp Hnth Hfm; simpl.
  - now rewrite app_nil_r.
  - destruct Hfm as (d & Hd & Hall & Hbefore).
    assert (d = mp) by congruence. subst d.
    assert (Hlt : (max_ind < length pre)%nat)
      by (apply nth_error_Some; congruence).
    replace (pre ++ x :: ip) with ((pre ++ [x]) ++ ip)
      by (now rewrite <- app_assoc).
    replace (S (length pre)) with (length (pre ++ [x]))
      by (rewrite length_app; simpl; lia).
    destruct (x <=? mp)%float eqn:Hx; simpl.
    + (* x does not exceed the maximum so far *)
      apply IH; [assumption| |].
      * rewrite nth_error_app1 by assumption. assumption.
      * exists mp. split; [|split].
        -- rewrite nth_error_app1 by assumption. assumption.
        -- intros j dj Hj.
           destruct (Nat.lt_ge_cases j (length pre)) as [Hjl|Hjl].
           ++ rewrite nth_error_app1 in Hj by assumption. eauto.
           ++ rewrite nth_error_app2 in Hj by assumption.
              destruct (j - length pre)%nat as [|n]; simpl in Hj.
              ** injection Hj as <-. now rewrite np_le_leb.
              ** destruct n; discriminate.
        -- intros j dj Hj Hnj.
           rewrite nth_error_app1 in Hnj by lia. eauto.
    + destruct (is_nan x) eqn:Hnan.
      * (* a NaN ends the scan and is the maximum *)
        exists x. split; [|split].
        -- rewrite <- app_assoc. simpl.
           rewrite nth_error_app2 by lia. now rewrite Nat.sub_diag.
        -- intros j dj _. now apply np_le_nan.
        -- intros j dj Hj Hnj.
           rewrite <- app_assoc in Hnj. simpl in Hnj.
           rewrite nth_error_app1 in Hnj by assumption.
           unfold np_le.
           rewrite (np_le_below_number dj mp Hmp (Hall _ _ Hnj)). simpl.
           now apply leb_nan_l.
      * (* a new strict maximum *)
        assert (Hmx : (mp <=? x)%float = true) by now apply leb_total.
        apply IH; [assumption| |].
        -- rewrite nth_error_app2 by lia. now rewrite Nat.sub_diag.
        -- exists x. split; [|split].
           ++ rewrite nth_error_app2 by lia. now rewrite Nat.sub_diag.
           ++ intros j dj Hj.
              destruct (Nat.lt_ge_cases j (length pre)) as [Hjl|Hjl].
              ** rewrite nth_error_app1 in Hj by assumption.
                 apply np_le_trans with mp; [eauto|].
                 now rewrite np_le_leb.
              ** rewrite nth_error_app2 in Hj by assumption.
                 destruct (j - length pre)%nat as [|n]; simpl in Hj.
                 --- injection Hj as <-. apply np_le_refl.
                 --- destruct n; discriminate.
           ++ intros j dj Hj Hnj.
              rewrite nth_error_app1 in Hnj by assumption.
              destruct (np_le x dj) eqn:E; [|reflexivity].
              assert (Hdj : np_le dj mp = true) by eauto.
              pose proof (np_le_trans _ _ _ E Hdj) as Hc.
              rewrite np_le_leb in Hc by assumption. congruence.
Qed.

Lemma np_argmax_first_max a i : np_argmax a = Ok i -> first_max a i.
Proof.
  destruct a as [|mp ip]; simpl; [discriminate|].
  intros H. injection H as <-.
  destruct (is_nan mp) eqn:Hnan.
  - exists mp. split; [reflexivity|]. split.
    + intros j dj _. now apply np_le_nan.
    + intros j dj Hj. lia.
  - apply (argmax_loop_first_max ip [mp] mp 0%nat Hnan eq_refl).
    exists mp. split; [reflexivity|]. split.
    + intros [|[|j]] dj Hj; simpl in Hj; try discriminate.
      injection Hj as <-. apply np_le_refl.
    + intros j dj Hj. lia.
Qed.

Lemma np_argmax_nonempty a : a <> [] -> exists i, np_argmax a = Ok i.
Proof. destruct a; [congruence|]. simpl. eauto. Qed.

Lemma first_max_lt l i : first_max l i -> (i < length l)%nat.
Proof.
  intros (d & Hd & _). apply nth_error_Some. congruence.
Qed.

End Argmax.

(** ** The Knee Selector *)

Section Knee.

Lemma bind_ok {A B} (r : result A) (k : A -> result B) b :
  bind r k = Ok b -> exists a, r = Ok a /\ k a = Ok b.
Proof. destruct r; simpl; [eauto|discriminate]. Qed.

Lemma bind_raise {A B} (r : result A) (k : A -> result B) e :
  bind r k = Raise e -> r = Raise e \/ exists a, r = Ok a /\ k a = Raise e.
Proof. destruct r; simpl; [eauto|]. intros H; left; congruence. Qed.

Lemma float_of_int_raises z e :
  Py.float_of_int z = Raise e -> e = OverflowError.
Proof.
  unfold Py.float_of_int. destruct (Z.abs z <? 2 ^ 63); [discriminate|].
  destruct (is_infinity _); congruence.
Qed.

Lemma float_of_int_small z :
  Z.abs z < 2 ^ 63 -> exists f, Py.float_of_int z = Ok f.
Proof.
  intros H. unfold Py.float_of_int.
  apply Z.ltb_lt in H. rewrite H. eauto.
Qed.

Lemma distancia_formula x1 y1 x2 y2 x0 y0 d :
  distancia x1 y1 x2 y2 x0 y0 = Ok d -> chord_distance x1 y1 x2 y2 x0 y0 d.
Proof.
  unfold distancia. intros H.
  apply bind_ok in H as (fx0 & E0 & H).
  apply bind_ok in H as (fdx & Edx & H).
  apply bind_ok in H as (fx2 & E2 & H).
  apply bind_ok in H as (fx1 & E1 & H).
  apply bind_ok in H as (sq & Esq & H).
  apply bind_ok in H as (fdx2 & Edx2 & H).
  apply bind_ok in H as (den & Eden & H).
  exists fx0, fdx, fx2, fx1, fdx2. repeat (split; [assumption|]).
  unfold Py.pow2 in Esq. destruct (_ && _) in Esq; [discriminate|].
  injection Esq as <-.
  unfold Py.math_sqrt in Eden. destruct (_ <? _)%float in Eden; [discriminate|].
  injection Eden as <-.
  unfold Py.truediv in H. destruct (_ =? _)%float in H; [discriminate|].
  now injection H as <-.
Qed.

Lemma distancia_raises x1 y1 x2 y2 x0 y0 e :
  distancia x1 y1 x2 y2 x0 y0 = Raise e -> arithmetic_exn e.
Proof.
  unfold distancia, arithmetic_exn. intros H.
  repeat (apply bind_raise in H as [H|(? & _ & H)];
          [apply float_of_int_raises in H; auto|]).
  apply bind_raise in H as [H|(? & _ & H)].
  { unfold Py.pow2 in H. destruct (_ && _) in H; [|discriminate].
    injection H as <-. auto. }
  apply bind_raise in H as [H|(? & _ & H)];
    [apply float_of_int_raises in H; auto|].
  apply bind_raise in H as [H|(? & _ & H)].
  { unfold Py.math_sqrt in H. destruct (_ <? _)%float in H; [|discriminate].
    injection H as <-. auto. }
  unfold Py.truediv in H. destruct (_ =? _)%float in H; [|discriminate].
  injection H as <-. auto.
Qed.

Lemma distancias_from_ok x1 y1 x2 y2 k_min wcss : forall i ds,
  distancias_from x1 y1 x2 y2 k_min i wcss = Ok ds ->
  length ds = length wcss /\
  forall j y0, nth_error wcss j = Some y0 ->
    exists d, nth_error ds j = Some d /\
      distancia x1 y1 x2 y2 (k_min + Z.of_nat (i + j)) y0 = Ok d.
Proof.
  induction wcss as [|y rest IH]; intros i ds H; simpl in H.
  - injection H as <-. split; [reflexivity|].
    intros [|j] y0 Hj; discriminate.
  - apply bind_ok in H as (d & Hd & H).
    apply bind_ok in H as (ds' & Hds & H). injection H as <-.
    destruct (IH _ _ Hds) as [Hlen Hnth]. split; [simpl; congruence|].
    intros [|j] y0 Hj; simpl in Hj.
    + injection Hj as <-. exists d. split; [reflexivity|].
      now rewrite Nat.add_0_r.
    + destruct (Hnth j y0 Hj) as (d' & Hd' & Hdist).
      exists d'. split; [assumption|].
      now replace (i + S j)%nat with (S i + j)%nat by lia.
Qed.

Lemma distancias_from_raises x1 y1 x2 y2 k_min wcss : forall i e,
  distancias_from x1 y1 x2 y2 k_min i wcss = Raise e -> arithmetic_exn e.
Proof.
  induction wcss as [|y rest IH]; intros i e H; simpl in H; [discriminate|].
  apply bind_raise in H as [H|(d & _ & H)].
  - eapply distancia_raises; eassumption.
  - apply bind_raise in H as [H|(ds & _ & H)]; [eauto|discriminate].
Qed.

(** What a call on a non-empty sequence does, whatever its length. *)
Lemma knee_cases y1 rest k_min k_max :
  let wcss := y1 :: rest in
  match distancias wcss k_min k_max with
  | Ok ds =>
      length ds = length wcss /\
      (forall j y0, nth_error wcss j = Some y0 ->
         exists d, nth_error ds j = Some d /\
           chord_distance k_min y1 k_max (last wcss y1)
             (k_min + Z.of_nat j) y0 d) /\
      exists i, first_max ds i /\
        get_numero_otimo_clusters wcss k_min k_max = Ok (k_min + Z.of_nat i)
  | Raise e =>
      arithmetic_exn e /\
      get_numero_otimo_clusters wcss k_min k_max = Raise e
  end.
Proof.
  intros wcss. unfold get_numero_otimo_clusters.
  destruct (distancias wcss k_min k_max) as [ds|e] eqn:E; simpl.
  - unfold distancias in E. cbn [wcss] in E.
    apply distancias_from_ok in E as [Hlen Hnth].
    split; [assumption|]. split.
    + intros j y0 Hj. destruct (Hnth j y0 Hj) as (d & Hd & Hdist).
      exists d. split; [assumption|]. now apply distancia_formula.
    + destruct (np_argmax_nonempty ds) as [i Hi].
      { intros ->. discriminate. }
      exists i. split; [now apply np_argmax_first_max|].
      now rewrite Hi.
  - split; [|reflexivity]. unfold distancias in E. cbn [wcss] in E.
    eapply distancias_from_raises; eassumption.
Qed.

End Knee.

(** ** The degenerate chord *)

Section Degenerate.

Lemma is_infinity_of_spec x s :
  Prim2SF x = S754_infinity s -> is_infinity x = true.
Proof.
  intros H. unfold is_infinity. rewrite FloatAxioms.eqb_spec, FloatAxioms.abs_spec, H. reflexivity.
Qed.

(** A finite double minus itself is [+0.0]. *)
Lemma sub_diag_finite y : is_finite y = true -> (y - y)%float = 0%float.
Proof.
  unfold is_finite. intros H.
  apply negb_true_iff, orb_false_elim in H as [Hnan Hinf].
  apply Prim2SF_inj. rewrite FloatAxioms.sub_spec.
  change (Prim2SF 0) with (S754_zero false).
  destruct (Prim2SF y) as [s|s| |s m e] eqn:E.
  - destruct s; reflexivity.
  - apply is_infinity_of_spec in E. congruence.
  - apply is_nan_spec in E. congruence.
  - unfold SF64sub, SFsub. rewrite Z.sub_diag. reflexivity.
Qed.

Lemma float_of_int_0 : Py.float_of_int 0 = Ok 0%float.
Proof. reflexivity. Qed.

Lemma distancia_degenerate k y x0 :
  is_finite y = true ->
  exists e, distancia k y k y x0 y = Raise e /\
    (e = ZeroDivisionError \/ e = OverflowError) /\
    (Z.abs k < 2 ^ 63 -> Z.abs x0 < 2 ^ 63 -> e = ZeroDivisionError).
Proof.
  intros Hy. unfold distancia.
  rewrite Z.sub_diag, (sub_diag_finite y Hy). simpl (0 ^ 2).
  rewrite float_of_int_0.
  destruct (Py.float_of_int x0) as [fx0|e0] eqn:E0; simpl.
  - destruct (Py.float_of_int k) as [fk|ek] eqn:Ek; simpl.
    + exists ZeroDivisionError. auto.
    + exists ek. apply float_of_int_raises in Ek as Hek. subst ek.
      split; [reflexivity|]. split; [auto|].
      intros Hk _. destruct (float_of_int_small k Hk). congruence.
  - exists e0. apply float_of_int_raises in E0 as He. subst e0.
    split; [reflexivity|]. split; [auto|].
    intros _ Hx. destruct (float_of_int_small x0 Hx). congruence.
Qed.

End Degenerate.

(** ** Rounding of doubles *)

Section Rounding.

(** The number of binary digits of a mantissa. *)
Lemma digits2_pos_log2 p : Z.pos (digits2_pos p) = Z.log2 (Z.pos p) + 1.
Proof.
  induction p as [p IH|p IH|]; simpl digits2_pos.
  - rewrite Pos2Z.inj_succ, IH. 
    change (Z.pos p~1) with (2 * Z.pos p + 1).
    rewrite Z.log2_succ_double by lia. lia.
  - rewrite Pos2Z.inj_succ, IH.
    change (Z.pos p~0) with (2 * Z.pos p).
    rewrite Z.log2_double by lia. lia.
  - reflexivity.
Qed.

Lemma Zdigits2_log2 m : 0 < m -> Zdigits2 m = Z.log2 m + 1.
Proof. destruct m; try lia. intros _. apply digits2_pos_log2. Qed.

Lemma Zdigits2_nonneg m : 0 <= Zdigits2 m.
Proof. destruct m; simpl; lia. Qed.

(** [shr_1] halves a non-negative mantissa. *)
Lemma shr_1_m mrs : 0 <= shr_m mrs -> shr_m (shr_1 mrs) = shr_m mrs / 2.
Proof.
  destruct mrs as [m r s]. simpl. intros Hm.
  destruct m as [|[p|p|]|p]; simpl shr_m; try lia; try reflexivity.
  - apply Z.div_unique with 1; lia.
  - apply Z.div_unique with 0; lia.
Qed.

Lemma shr_1_nonneg mrs : 0 <= shr_m mrs -> 0 <= shr_m (shr_1 mrs).
Proof. intros H. rewrite shr_1_m by assumption. apply Z.div_pos; lia. Qed.

Lemma iter_pos_shr_1_m p : forall mrs, 0 <= shr_m mrs ->
  0 <= shr_m (SpecFloat.iter_pos shr_1 p mrs) /\
  shr_m (SpecFloat.iter_pos shr_1 p mrs) = shr_m mrs / 2 ^ Z.pos p.
Proof.
  induction p as [p IH|p IH|]; intros mrs Hm; simpl SpecFloat.iter_pos.
  - destruct (IH (shr_1 mrs) (shr_1_nonneg _ Hm)) as [H1 E1].
    destruct (IH _ H1) as [H2 E2].
    split; [assumption|].
    rewrite E2, E1, shr_1_m by assumption.
    rewrite !Z.div_div by lia. f_equal.
    rewrite Pos2Z.inj_xI.
    replace (2 * Z.pos p + 1) with (1 + Z.pos p + Z.pos p) by lia.
    rewrite !Z.pow_add_r by lia. change (2 ^ 1) with 2. ring.
  - destruct (IH mrs Hm) as [H1 E1].
    destruct (IH _ H1) as [H2 E2].
    split; [assumption|].
    rewrite E2, E1. rewrite !Z.div_div by lia. f_equal.
    rewrite <- Z.pow_add_r by lia. f_equal. lia.
  - split; [now apply shr_1_nonneg|]. now apply shr_1_m.
Qed.

Lemma shr_m_record_of_loc m l : shr_m (shr_record_of_loc m l) = m.
Proof. destruct l as [|[]]; reflexivity. Qed.

(** [shr] of a non-negative mantissa: a right shift by [Z.max 0 n]. *)
Lemma shr_spec mrs e n : 0 <= shr_m mrs ->
  shr_m (fst (shr mrs e n)) = shr_m mrs / 2 ^ Z.max 0 n /\
  snd (shr mrs e n) = e + Z.max 0 n.
Proof.
  intros Hm. destruct n as [|p|p]; simpl.
  - rewrite Z.div_1_r. lia.
  - destruct (iter_pos_shr_1_m p mrs Hm) as [_ E]. rewrite E.
    split; [reflexivity|lia].
  - rewrite Z.div_1_r. lia.
Qed.

Lemma Zdigits2_shift m n : 0 < m -> 0 <= n < Zdigits2 m ->
  0 < m / 2 ^ n /\ Zdigits2 (m / 2 ^ n) = Zdigits2 m - n.
Proof.
  intros Hm Hn. rewrite Zdigits2_log2 in Hn by assumption.
  assert (Hpos : 0 < m / 2 ^ n).
  { apply Z.div_str_pos. split; [apply Z.pow_pos_nonneg; lia|].
    apply Z.le_trans with (2 ^ Z.log2 m).
    - apply Z.pow_le_mono_r; lia.
    - apply Z.log2_spec; lia. }
  split; [assumption|].
  rewrite !Zdigits2_log2 by assumption.
  rewrite <- Z.shiftr_div_pow2 by lia.
  rewrite Z.log2_shiftr by lia. lia.
Qed.

Lemma fexp64_eq x : (fexp prec emax) x = Z.max (x - 53) (-1074).
Proof. reflexivity. Qed.

Lemma round_nearest_even_cases m l :
  round_nearest_even m l = m \/ round_nearest_even m l = m + 1.
Proof.
  destruct l as [|[]]; simpl; auto. destruct (Z.even m); auto.
Qed.

(** The two shifts and the rounding between them that make
    [binary_round_aux]. *)
Lemma binary_round_aux_anatomy sx m e l :
  0 < m ->
  exists m1 m2 m3 e1 e3,
    m1 = m / 2 ^ Z.max 0 ((fexp prec emax) (Zdigits2 m + e) - e) /\
    e1 = e + Z.max 0 ((fexp prec emax) (Zdigits2 m + e) - e) /\
    (m2 = m1 \/ m2 = m1 + 1) /\
    m3 = m2 / 2 ^ Z.max 0 ((fexp prec emax) (Zdigits2 m2 + e1) - e1) /\
    e3 = e1 + Z.max 0 ((fexp prec emax) (Zdigits2 m2 + e1) - e1) /\
    binary_round_aux prec emax sx m e l =
      match m3 with
      | 0 => S754_zero sx
      | Z.pos p =>
          if e3 <=? emax - prec then S754_finite sx p e3
          else S754_infinity sx
      | Z.neg _ => S754_nan
      end.
Proof.
  intros Hm. unfold binary_round_aux, shr_fexp.
  set (n1 := (fexp prec emax) (Zdigits2 m + e) - e).
  destruct (shr_spec (shr_record_of_loc m l) e n1) as [E1 E1'].
  { rewrite shr_m_record_of_loc. lia. }
  rewrite shr_m_record_of_loc in E1.
  destruct (shr (shr_record_of_loc m l) e n1) as [mrs1 e1]. simpl in E1, E1'.
  set (m2 := round_nearest_even (shr_m mrs1) (loc_of_shr_record mrs1)).
  assert (H1 : 0 <= shr_m mrs1) by (rewrite E1; apply Z.div_pos; lia).
  assert (H2 : 0 <= m2)
    by (destruct (round_nearest_even_cases (shr_m mrs1)
                    (loc_of_shr_record mrs1)); fold m2 in H; lia).
  set (n2 := (fexp prec emax) (Zdigits2 m2 + e1) - e1).
  destruct (shr_spec (shr_record_of_loc m2 loc_Exact) e1 n2) as [E3 E3'].
  { simpl. lia. }
  destruct (shr (shr_record_of_loc m2 loc_Exact) e1 n2) as [mrs3 e3].
  simpl in E3, E3'.
  exists (shr_m mrs1), m2, (shr_m mrs3), e1, e3.
  repeat split; try assumption.
  apply round_nearest_even_cases.
Qed.

Lemma Zdigits2_mono a b : 0 <= a <= b -> Zdigits2 a <= Zdigits2 b.
Proof.
  intros [Ha Hab]. destruct (Z.eq_dec a 0) as [->|Hne].
  - apply Zdigits2_nonneg.
  - rewrite !Zdigits2_log2 by lia.
    pose proof (Z.log2_le_mono a b Hab). lia.
Qed.

Lemma Zdigits2_succ m : 0 <= m -> Zdigits2 (m + 1) <= Zdigits2 m + 1.
Proof.
  intros Hm. destruct (Z.eq_dec m 0) as [->|Hne]; [simpl; lia|].
  rewrite !Zdigits2_log2 by lia.
  pose proof (Z.log2_succ_le m). rewrite <- Z.add_1_r in H. lia.
Qed.

Lemma Zdigits2_small m n : 0 < m -> Zdigits2 m <= n -> m / 2 ^ n = 0.
Proof.
  intros Hm Hn. rewrite Zdigits2_log2 in Hn by assumption.
  apply Z.div_small. split; [lia|].
  apply Z.lt_le_trans with (2 ^ (Z.log2 m + 1)).
  - pose proof (Z.log2_spec m Hm). replace (Z.log2 m + 1) with (Z.succ (Z.log2 m)) by lia. lia.
  - apply Z.pow_le_mono_r; lia.
Qed.

Lemma Zdigits2_pos m : 0 < m -> 1 <= Zdigits2 m.
Proof.
  intros Hm. rewrite Zdigits2_log2 by assumption.
  pose proof (Z.log2_nonneg m). lia.
Qed.

(** No underflow to zero: a positive mantissa above the least exponent rounds
    to a finite number or to infinity. *)
Lemma binary_round_aux_nonzero sx m e l :
  0 < m -> (-1074) < Zdigits2 m + e ->
  (exists m' e', binary_round_aux prec emax sx m e l = S754_finite sx m' e')
  \/ binary_round_aux prec emax sx m e l = S754_infinity sx.
Proof.
  intros Hm HD.
  destruct (binary_round_aux_anatomy sx m e l Hm)
    as (m1 & m2 & m3 & e1 & e3 & E1 & Ee1 & E2 & E3 & Ee3 & ->).
  rewrite fexp64_eq in E1, Ee1.
  remember (Z.max 0 (Z.max (Zdigits2 m + e - 53) (-1074) - e)) as n1 eqn:Hdefn1.
  pose proof (Zdigits2_pos m Hm) as Hdm.
  assert (Hn1 : 0 <= n1 < Zdigits2 m) by lia.
  destruct (Zdigits2_shift m n1 Hm Hn1) as [Hm1 Hd1]. rewrite <- E1 in *.
  assert (Hm2 : 0 < m2) by lia.
  assert (Hd2 : Zdigits2 m1 <= Zdigits2 m2)
    by (apply Zdigits2_mono; lia).
  rewrite fexp64_eq in E3, Ee3.
  remember (Z.max 0 (Z.max (Zdigits2 m2 + e1 - 53) (-1074) - e1)) as n2 eqn:Hdefn2.
  pose proof (Zdigits2_pos m2 Hm2) as Hdm2.
  assert (Hn2 : 0 <= n2 < Zdigits2 m2) by lia.
  destruct (Zdigits2_shift m2 n2 Hm2 Hn2) as [Hm3 _]. rewrite <- E3 in *.
  destruct m3 as [|p|p]; try lia.
  destruct (e3 <=? emax - prec); eauto.
Qed.

(** No overflow: below the greatest exponent the result is zero or finite. *)
Lemma binary_round_aux_bounded sx m e l :
  0 < m -> Zdigits2 m + e <= 1023 ->
  (e <= 971 \/ e <= (fexp prec emax) (Zdigits2 m + e)) ->
  binary_round_aux prec emax sx m e l = S754_zero sx \/
  exists m' e',
    binary_round_aux prec emax sx m e l = S754_finite sx m' e' /\
    Z.pos (digits2_pos m') + e' <= Z.max (Zdigits2 m + e) (-1074) + 1.
Proof.
  intros Hm HD He.
  destruct (binary_round_aux_anatomy sx m e l Hm)
    as (m1 & m2 & m3 & e1 & e3 & E1 & Ee1 & E2 & E3 & Ee3 & ->).
  rewrite fexp64_eq in E1, Ee1, He.
  remember (Z.max 0 (Z.max (Zdigits2 m + e - 53) (-1074) - e)) as n1 eqn:Hdefn1.
  assert (Hm1 : 0 <= m1) by (rewrite E1; apply Z.div_pos; lia).
  assert (Hm2 : 0 <= m2) by lia.
  rewrite fexp64_eq in E3, Ee3.
  remember (Z.max 0 (Z.max (Zdigits2 m2 + e1 - 53) (-1074) - e1)) as n2 eqn:Hdefn2.
  assert (Hd2 : Zdigits2 m2 + e1 <= Z.max (Zdigits2 m + e) (-1074) + 1
                /\ Zdigits2 m2 + e1 <= 1024).
  { destruct (Z_lt_le_dec n1 (Zdigits2 m)) as [Hlt|Hge].
    - destruct (Zdigits2_shift m n1 Hm) as [Hp Hd1]; [lia|].
      rewrite <- E1 in *.
      assert (Zdigits2 m2 <= Zdigits2 m1 + 1).
      { destruct E2 as [->| ->]; [lia|]. now apply Zdigits2_succ. }
      lia.
    - assert (Hz : m1 = 0) by (rewrite E1; apply Zdigits2_small; lia).
      rewrite Hz in E2.
      assert (Zdigits2 m2 <= 1).
      { destruct E2 as [E2|E2]; rewrite E2; simpl; lia. }
      pose proof (Zdigits2_nonneg m). lia. }
  destruct m3 as [|p|p].
  - now left.
  - right. assert (He3 : e3 <= 971) by lia.
    apply Z.leb_le in He3. change (emax - prec) with 971. rewrite He3.
    exists p, e3. split; [reflexivity|].
    destruct (Z.eq_dec m2 0) as [->|Hne];
      [rewrite Z.div_0_l in E3 by (apply Z.pow_nonzero; lia); lia|].
    destruct (Z_lt_le_dec n2 (Zdigits2 m2)) as [Hlt|Hge].
    + destruct (Zdigits2_shift m2 n2) as [_ Hd3]; [lia|lia|].
      rewrite <- E3 in Hd3. simpl Zdigits2 in Hd3. lia.
    + assert (Z.pos p = 0) by (rewrite E3; apply Zdigits2_small; lia). lia.
  - exfalso. assert (0 <= Z.neg p) by (rewrite E3; apply Z.div_pos; lia). lia.
Qed.

(** [shl_align] lowers the exponent and keeps the value. *)
Lemma iter_xO_mul m d : Z.pos (Pos.iter xO m d) = Z.pos m * 2 ^ Z.pos d.
Proof.
  induction d as [|d IH] using Pos.peano_ind.
  - simpl. lia.
  - rewrite Pos.iter_succ, Pos2Z.inj_succ, Z.pow_succ_r by lia.
    rewrite Pos2Z.inj_xO, IH. ring.
Qed.

Lemma Zdigits2_mul_pow2 m n : 0 < m -> 0 <= n ->
  Zdigits2 (m * 2 ^ n) = Zdigits2 m + n.
Proof.
  intros Hm Hn.
  assert (0 < 2 ^ n) by (apply Z.pow_pos_nonneg; lia).
  rewrite !Zdigits2_log2 by nia.
  rewrite <- Z.shiftl_mul_pow2 by assumption.
  rewrite Z.log2_shiftl by lia. lia.
Qed.

Lemma shl_align_spec mx ex ex' :
  let '(mz, ez) := shl_align mx ex ex' in
  ez = Z.min ex ex' /\
  Z.pos mz = Z.pos mx * 2 ^ (ex - ez) /\
  Zdigits2 (Z.pos mz) + ez = Zdigits2 (Z.pos mx) + ex.
Proof.
  unfold shl_align. destruct (ex' - ex) as [|d|d] eqn:E.
  - assert (ex' = ex) by lia. subst. rewrite Z.min_id, Z.sub_diag. simpl "^". lia.
  - assert (ex < ex') by lia. rewrite Z.min_l, Z.sub_diag by lia. simpl "^". lia.
  - assert (Hd : ex - ex' = Z.pos d) by lia.
    rewrite Z.min_r by lia. rewrite Hd.
    split; [reflexivity|]. split; [apply iter_xO_mul|].
    rewrite iter_xO_mul, Zdigits2_mul_pow2 by lia. lia.
Qed.

(** What [valid_binary] says of a finite double. *)
Lemma valid_finite s m e :
  valid_binary (S754_finite s m e) = true ->
  (-1074) <= e <= 971 /\ Z.pos (digits2_pos m) <= 53 /\
  (e = (-1074) \/ Z.pos (digits2_pos m) = 53).
Proof.
  simpl. unfold bounded, canonical_mantissa. rewrite fexp64_eq.
  intros H. apply andb_true_iff in H as [H1 H2].
  apply Z.eqb_eq in H1. apply Z.leb_le in H2.
  change (emax - prec) with 971 in H2. lia.
Qed.

(** Signs across the operations of the distance formula. *)

Lemma binary_round_aux_sign m e l : 0 < m ->
  SFnonneg (binary_round_aux prec emax false m e l).
Proof.
  intros Hm.
  destruct (binary_round_aux_anatomy false m e l Hm)
    as (m1 & m2 & m3 & e1 & e3 & _ & _ & _ & _ & _ & ->).
  destruct m3; simpl; auto. destruct (_ <=? _); simpl; auto.
Qed.

Lemma binary_round_positive m e : (-1074) <= e ->
  SFpositive (binary_round prec emax false m e).
Proof.
  intros He. unfold binary_round.
  pose proof (shl_align_spec m e ((fexp prec emax) (Z.pos (digits2_pos m) + e))) as H.
  destruct (shl_align m e _) as [mz ez]. destruct H as (Hez & Hmz & HD).
  assert (HD' : (-1074) < Zdigits2 (Z.pos mz) + ez).
  { rewrite HD. pose proof (Zdigits2_pos (Z.pos m)). lia. }
  destruct (binary_round_aux_nonzero false (Z.pos mz) ez loc_Exact)
    as [(m' & e' & ->)| ->]; simpl; auto; lia.
Qed.

Lemma mul_self_nonneg v : SFnonneg (Prim2SF (v * v)).
Proof.
  rewrite FloatAxioms.mul_spec. unfold SF64mul.
  destruct (Prim2SF v) as [s|s| |s m e]; simpl; auto.
  - destruct s; simpl; auto.
  - destruct s; simpl; auto.
  - replace (xorb s s) with false by (destruct s; reflexivity).
    apply binary_round_aux_sign. lia.
Qed.

Lemma of_uint63_positive n : 0 < n < 2 ^ 63 ->
  SFpositive (Prim2SF (of_uint63 (Uint63.of_Z n))).
Proof.
  intros Hn. rewrite FloatAxioms.of_uint63_spec, Uint63.of_Z_spec.
  rewrite Z.mod_small by (change Uint63.wB with (2 ^ 63); lia).
  destruct n as [|p|p]; try lia. simpl binary_normalize.
  apply binary_round_positive. lia.
Qed.

Lemma add_nonneg_positive a b :
  SFnonneg (Prim2SF a) -> SFpositive (Prim2SF b) ->
  SFpositive (Prim2SF (a + b)).
Proof.
  rewrite FloatAxioms.add_spec. unfold SF64add.
  pose proof (FloatAxioms.Prim2SF_valid a) as Va. pose proof (FloatAxioms.Prim2SF_valid b) as Vb.
  destruct (Prim2SF a) as [[]|[]| |[] ma ea]; simpl; try contradiction;
    destruct (Prim2SF b) as [[]|[]| |[] mb eb]; simpl; try contradiction;
    auto.
  intros _ _.
  apply valid_finite in Va as (Hea & _). apply valid_finite in Vb as (Heb & _).
  pose proof (shl_align_spec ma ea (Z.min ea eb)) as Ha.
  pose proof (shl_align_spec mb eb (Z.min ea eb)) as Hb.
  destruct (shl_align ma ea _) as [ma' ea'].
  destruct (shl_align mb eb _) as [mb' eb']. simpl fst.
  change (SFpositive (binary_round prec emax false (ma' + mb') (Z.min ea eb))).
  apply binary_round_positive. lia.
Qed.

Lemma sqrt_positive s : SFpositive (Prim2SF s) -> SFpositive (Prim2SF (PrimFloat.sqrt s)).
Proof.
  rewrite FloatAxioms.sqrt_spec. unfold SF64sqrt.
  pose proof (FloatAxioms.Prim2SF_valid s) as V.
  destruct (Prim2SF s) as [[]|[]| |[] m e]; simpl; try contradiction; auto.
  intros _. apply valid_finite in V as (He & _).
  unfold SFsqrt_core_binary.
  set (e' := Z.min ((fexp prec emax) (Z.div2 (Zdigits2 (Z.pos m) + e + 1))) (Z.div2 e)).
  set (s' := e - 2 * e').
  set (m' := match s' with
             | 0 => Z.pos m
             | Z.pos _ => Z.shiftl (Z.pos m) s'
             | Z.neg _ => 0
             end).
  assert (He' : (-1074) <= e' <= Z.div2 e).
  { unfold e'. rewrite fexp64_eq. rewrite (Z.div2_div e).
    assert (-537 <= e / 2) by (apply Z.div_le_lower_bound; lia). lia. }
  assert (Hs : 0 <= s').
  { unfold s'. rewrite (Z.div2_div e) in He'.
    pose proof (Z.mul_div_le e 2). lia. }
  assert (Hm' : 0 < m').
  { unfold m'. destruct s' as [|p|p] eqn:Es; try lia.
    rewrite Z.shiftl_mul_pow2 by lia.
    assert (0 < 2 ^ Z.pos p) by (apply Z.pow_pos_nonneg; lia). nia. }
  pose proof (Z.sqrtrem_sqrt m') as Hq.
  destruct (Z.sqrtrem m') as [q r]. simpl in Hq.
  assert (Hqpos : 0 < q) by (rewrite Hq; now apply Z.sqrt_pos).
  pose proof (Zdigits2_pos q Hqpos).
  match goal with
  | |- SFpositive (binary_round_aux _ _ _ q e' ?l) =>
      destruct (binary_round_aux_nonzero false q e' l)
        as [(m2 & e2 & ->)| ->]; simpl; auto; lia
  end.
Qed.

Lemma positive_not_neg s : SFpositive (Prim2SF s) -> (s <? 0)%float = false.
Proof.
  rewrite FloatAxioms.ltb_spec. change (Prim2SF 0) with (S754_zero false).
  destruct (Prim2SF s) as [[]|[]| |[] m e]; simpl; try contradiction;
    reflexivity.
Qed.

Lemma positive_not_zero s : SFpositive (Prim2SF s) -> (s =? 0)%float = false.
Proof.
  rewrite FloatAxioms.eqb_spec. change (Prim2SF 0) with (S754_zero false).
  destruct (Prim2SF s) as [[]|[]| |[] m e]; simpl; try contradiction;
    reflexivity.
Qed.

Lemma Zdigits2_le_pow2 m n : 0 < m -> (Zdigits2 m <= n <-> m < 2 ^ n).
Proof.
  intros Hm. rewrite Zdigits2_log2 by assumption.
  rewrite (Z.log2_lt_pow2 m n) by assumption. lia.
Qed.

Lemma wcss_bound_spec :
  Prim2SF wcss_bound = S754_finite false 4503599627370496 448.
Proof. vm_compute. reflexivity. Qed.

Lemma bounded_below y :
  (abs y <=? wcss_bound)%float = true -> SFbelow 501 (Prim2SF y).
Proof.
  rewrite FloatAxioms.leb_spec, FloatAxioms.abs_spec, wcss_bound_spec.
  pose proof (FloatAxioms.Prim2SF_valid y) as V.
  destruct (Prim2SF y) as [s|s| |s m e].
  - intros _. exact I.
  - intros H. discriminate H.
  - intros H. discriminate H.
  - apply valid_finite in V as (He & Hd & _).
    unfold SFleb, SFabs, SFcompare, SFbelow.
    destruct (Z.compare_spec e 448); try discriminate; intros _; lia.
Qed.

Lemma below_not_infinity D x : SFbelow D (Prim2SF x) -> is_infinity x = false.
Proof.
  unfold is_infinity. rewrite FloatAxioms.eqb_spec, FloatAxioms.abs_spec.
  change (Prim2SF infinity) with (S754_infinity false).
  destruct (Prim2SF x); simpl; try contradiction; reflexivity.
Qed.

Lemma binary_round_below s m e D :
  Zdigits2 (Z.pos m) + e <= D -> (-1074) <= D -> D <= 1023 ->
  SFbelow (D + 1) (binary_round prec emax s m e).
Proof.
  intros HD Hmin Hmax. unfold binary_round.
  pose proof (shl_align_spec m e ((fexp prec emax) (Z.pos (digits2_pos m) + e))) as H.
  destruct (shl_align m e _) as [mz ez]. destruct H as (Hez & Hmz & HDz).
  cbn [Zdigits2] in HD, HDz.
  destruct (binary_round_aux_bounded s (Z.pos mz) ez loc_Exact)
    as [->|(m' & e' & -> & Hb)]; cbn [SFbelow Zdigits2] in *; auto; try lia.
  right. rewrite HDz. lia.
Qed.

Lemma sub_below a b D :
  SFbelow D (Prim2SF a) -> SFbelow D (Prim2SF b) ->
  (-1074) <= D -> D <= 1021 ->
  SFbelow (D + 2) (Prim2SF (a - b)).
Proof.
  rewrite FloatAxioms.sub_spec. unfold SF64sub.
  destruct (Prim2SF a) as [sa|sa| |sa ma ea]; cbn [SFbelow]; try contradiction;
    destruct (Prim2SF b) as [sb|sb| |sb mb eb]; cbn [SFbelow SFsub];
    try contradiction; intros Ha Hb Hmin Hmax.
  - destruct sa, sb; exact I.
  - lia.
  - lia.
  - pose proof (shl_align_spec ma ea (Z.min ea eb)) as Sa.
    pose proof (shl_align_spec mb eb (Z.min ea eb)) as Sb.
    destruct (shl_align ma ea _) as [ma' ea'].
    destruct (shl_align mb eb _) as [mb' eb']. cbn [fst].
    destruct Sa as (Eea & _ & Da). destruct Sb as (Eeb & _ & Db).
    remember (Z.min ea eb) as ez eqn:Hez.
    assert (Hea : ea' = ez) by lia. assert (Heb : eb' = ez) by lia.
    subst ea' eb'. cbn [Zdigits2] in Da, Db.
    pose proof (Zdigits2_pos (Z.pos ma') eq_refl) as Pa.
    pose proof (Zdigits2_pos (Z.pos mb') eq_refl) as Pb.
    cbn [Zdigits2] in Pa, Pb.
    assert (Ba : Z.pos ma' < 2 ^ (D - ez)).
    { apply Zdigits2_le_pow2; [lia|]. cbn [Zdigits2]. lia. }
    assert (Bb : Z.pos mb' < 2 ^ (D - ez)).
    { apply Zdigits2_le_pow2; [lia|]. cbn [Zdigits2]. lia. }
    assert (Hpow : 2 ^ (D - ez + 1) = 2 * 2 ^ (D - ez)).
    { rewrite Z.pow_add_r by lia. change (2 ^ 1) with 2. ring. }
    remember (cond_Zopp sa (Z.pos ma') - cond_Zopp sb (Z.pos mb')) as z eqn:Ez.
    assert (Hz : Z.abs z < 2 ^ (D - ez + 1)).
    { rewrite Hpow. subst z. destruct sa, sb; cbn [cond_Zopp]; lia. }
    destruct z as [|p|p]; cbn [binary_normalize].
    + exact I.
    + replace (D + 2) with (D + 1 + 1) by lia.
      apply binary_round_below; try lia.
      assert (Zdigits2 (Z.pos p) <= D - ez + 1)
        by (apply Zdigits2_le_pow2; lia). lia.
    + replace (D + 2) with (D + 1 + 1) by lia.
      apply binary_round_below; try lia.
      assert (Zdigits2 (Z.pos p) <= D - ez + 1)
        by (apply Zdigits2_le_pow2; lia). lia.
Qed.

Lemma mul_self_below v :
  SFbelow 503 (Prim2SF v) -> SFbelow 1007 (Prim2SF (v * v)).
Proof.
  rewrite FloatAxioms.mul_spec. unfold SF64mul.
  pose proof (FloatAxioms.Prim2SF_valid v) as V.
  destruct (Prim2SF v) as [s|s| |s m e]; cbn [SFbelow SFmul];
    try contradiction; auto.
  intros Hb. apply valid_finite in V as (He & Hd & Hc).
  pose proof (Zdigits2_pos (Z.pos m) eq_refl) as Pm. cbn [Zdigits2] in Pm.
  remember (Z.pos (digits2_pos m)) as d eqn:Hdef.
  assert (Bm : Z.pos m < 2 ^ d).
  { apply Zdigits2_le_pow2; [lia|]. cbn [Zdigits2]. lia. }
  assert (Bmm : Z.pos (m * m) < 2 ^ (d + d)).
  { rewrite Z.pow_add_r, Pos2Z.inj_mul by lia. nia. }
  assert (Dmm : Zdigits2 (Z.pos (m * m)) <= d + d)
    by (apply Zdigits2_le_pow2; lia).
  destruct (binary_round_aux_bounded (xorb s s) (Z.pos (m * m)) (e + e)
              loc_Exact) as [->|(m' & e' & -> & Hb')];
    cbn [SFbelow]; auto; try lia.
Qed.

End Rounding.

(** ** Runs that raise nothing *)

Section KneeReturns.

Lemma float_of_int_positive z :
  0 < z < 2 ^ 63 ->
  exists f, Py.float_of_int z = Ok f /\ SFpositive (Prim2SF f).
Proof.
  intros Hz. unfold Py.float_of_int.
  rewrite Z.abs_eq by lia.
  destruct (Z.ltb_spec z (2 ^ 63)) as [_|]; [|lia].
  destruct (Z.ltb_spec z 0) as [|_]; [lia|].
  eexists. split; [reflexivity|]. now apply of_uint63_positive.
Qed.

Lemma pow2_below v : SFbelow 503 (Prim2SF v) -> Py.pow2 v = Ok (v * v)%float.
Proof.
  intros H. unfold Py.pow2.
  rewrite (below_not_infinity 1007 (v * v)) by now apply mul_self_below.
  reflexivity.
Qed.

(** The distance of a point to a chord between two distinct abscissas and
    two ordinates of moderate size raises nothing: the denominator is a
    positive number. *)
Lemma distancia_returns x1 y1 x2 y2 x0 y0 :
  Z.abs x0 < 2 ^ 63 -> Z.abs x1 < 2 ^ 63 -> Z.abs x2 < 2 ^ 63 ->
  Z.abs (x2 - x1) < 2 ^ 63 -> 0 < (x2 - x1) ^ 2 < 2 ^ 63 ->
  SFbelow 501 (Prim2SF y1) -> SFbelow 501 (Prim2SF y2) ->
  exists d, distancia x1 y1 x2 y2 x0 y0 = Ok d.
Proof.
  intros H0 H1 H2 Hdx Hdx2 B1 B2. unfold distancia.
  destruct (float_of_int_small x0 H0) as [fx0 ->].
  destruct (float_of_int_small _ Hdx) as [fdx ->].
  destruct (float_of_int_small x2 H2) as [fx2 ->].
  destruct (float_of_int_small x1 H1) as [fx1 ->].
  cbn [bind].
  assert (Bv : SFbelow 503 (Prim2SF (y2 - y1))).
  { apply (sub_below y2 y1 501); [assumption|assumption|lia|lia]. }
  rewrite (pow2_below _ Bv).
  destruct (float_of_int_positive _ Hdx2) as (fdx2 & -> & Pdx2).
  cbn [bind].
  assert (Ps : SFpositive (Prim2SF ((y2 - y1) * (y2 - y1) + fdx2))).
  { apply add_nonneg_positive; [apply mul_self_nonneg|assumption]. }
  unfold Py.math_sqrt. rewrite (positive_not_neg _ Ps). cbn [bind].
  unfold Py.truediv. rewrite (positive_not_zero _ (sqrt_positive _ Ps)).
  eauto.
Qed.

Lemma distancias_from_returns x1 y1 x2 y2 k_min wcss :
  Z.abs x1 < 2 ^ 63 -> Z.abs x2 < 2 ^ 63 ->
  Z.abs (x2 - x1) < 2 ^ 63 -> 0 < (x2 - x1) ^ 2 < 2 ^ 63 ->
  SFbelow 501 (Prim2SF y1) -> SFbelow 501 (Prim2SF y2) ->
  - 2 ^ 62 <= k_min ->
  forall i, k_min + Z.of_nat (i + length wcss) <= 2 ^ 62 ->
  exists ds, distancias_from x1 y1 x2 y2 k_min i wcss = Ok ds.
Proof.
  intros H1 H2 Hdx Hdx2 B1 B2 Hlo.
  induction wcss as [|y rest IH]; intros i Hhi; cbn [distancias_from].
  - eauto.
  - cbn [length] in Hhi.
    destruct (distancia_returns x1 y1 x2 y2 (k_min + Z.of_nat i) y)
      as [d ->]; try assumption; [lia|].
    destruct (IH (S i)) as [ds ->]; [lia|].
    cbn [bind]. eauto.
Qed.

Lemma moderate_inputs_spec wcss k_min k_max :
  moderate_inputs wcss k_min k_max = true ->
  - 2 ^ 30 <= k_min /\ k_max <= 2 ^ 30 /\
  forall y, In y wcss -> SFbelow 501 (Prim2SF y).
Proof.
  unfold moderate_inputs. intros H.
  apply andb_true_iff in H as [H Hall].
  apply andb_true_iff in H as [Hlo Hhi].
  apply Z.leb_le in Hlo, Hhi. repeat split; try assumption.
  intros y Hy. apply bounded_below.
  now apply (proj1 (forallb_forall _ _) Hall).
Qed.

Lemma last_In {A} (l : list A) : forall a d, In (last (a :: l) d) (a :: l).
Proof.
  induction l as [|b l IH]; intros a d; [now left|].
  right. change (last (a :: b :: l) d) with (last (b :: l) d). apply IH.
Qed.

(** On inputs of moderate size and a range of at least two values the loop
    of the Knee Selector raises nothing. *)
Lemma knee_returns wcss k_min k_max :
  k_min < k_max ->
  Z.of_nat (length wcss) = k_max - k_min + 1 ->
  moderate_inputs wcss k_min k_max = true ->
  exists ds, distancias wcss k_min k_max = Ok ds.
Proof.
  intros Hk Hlen Hm.
  apply moderate_inputs_spec in Hm as (Hlo & Hhi & Hall).
  destruct wcss as [|y1 rest]; [simpl in Hlen; lia|].
  unfold distancias.
  assert (P30 : 2 ^ 30 = 1073741824) by reflexivity.
  assert (P62 : 2 ^ 62 = 4611686018427387904) by reflexivity.
  assert (P63 : 2 ^ 63 = 9223372036854775808) by reflexivity.
  rewrite P30 in Hlo, Hhi.
  apply distancias_from_returns; rewrite ?P62, ?P63; try lia.
  - rewrite Z.pow_2_r. nia.
  - apply Hall. now left.
  - apply Hall. apply last_In.
Qed.

End KneeReturns.

(** ** Claims on the Knee Selector *)

Section KneeClaims.



(** C10.  On a WCSS sequence of length [k_max - k_min + 1] with
    [k_min < k_max], an integer the Knee Selector returns lies in
    [[k_min, k_max]]; a call that returns nothing raised an arithmetic
    exception, and on inputs of moderate size the call does return an
    integer of that range. *)
Theorem knee_result_in_range (wcss : list float) (k_min k_max : Z) :
  k_min < k_max ->
  Z.of_nat (length wcss) = k_max - k_min + 1 ->
  match get_numero_otimo_clusters wcss k_min k_max with
  | Ok k => k_min <= k <= k_max
  | Raise e => arithmetic_exn e
  end /\
  (moderate_inputs wcss k_min k_max = true ->
   exists k, get_numero_otimo_clusters wcss k_min k_max = Ok k /\
     k_min <= k <= k_max).
Proof.
  intros Hk Hlen.
  pose proof (knee_returns wcss k_min k_max Hk Hlen) as Hret.
  destruct wcss as [|y1 rest]; [simpl in Hlen; lia|].
  pose proof (knee_cases y1 rest k_min k_max) as H. cbv zeta in H.
  destruct (distancias (y1 :: rest) k_min k_max) as [ds|e].
  - destruct H as (Hl & _ & i & Hi & ->).
    apply first_max_lt in Hi. split; [lia|].
    intros _. exists (k_min + Z.of_nat i). split; [reflexivity|lia].
  - destruct H as [He ->]. split; [exact He|].
    intros Hm. destruct (Hret Hm) as [ds Hds]. discriminate Hds.
Qed.

(** C2, as the code has it.  With [k_min = k_max = k] and a single finite
    WCSS value the chord has length zero, the denominator is [0.0] and the
    call raises [ZeroDivisionError]: the division is not guarded.  (Only an
    integer [k] too large for a double raises [OverflowError] first.) *)
Theorem knee_degenerate_raises (y : float) (k : Z) :
  is_finite y = true ->
  exists e,
    get_numero_otimo_clusters [y] k k = Raise e /\
    (e = ZeroDivisionError \/ e = OverflowError) /\
    (Z.abs k < 2 ^ 63 -> e = ZeroDivisionError).
Proof.
  intros Hy.
  destruct (distancia_degenerate k y (k + 0) Hy) as (e & He & Hor & Hz).
  exists e. split; [|split; [assumption|]].
  - unfold get_numero_otimo_clusters, distancias. simpl. now rewrite He.
  - intros Hk. apply Hz; [assumption|]. now rewrite Z.add_0_r.
Qed.

(** C8, as the code has it.  The length of the WCSS sequence is not checked
    against the range.  An empty sequence raises [IndexError]; a non-empty
    one of any length is processed, and the call returns an integer in
    [[k_min, k_min + len - 1]] or raises an arithmetic exception. *)
Theorem knee_length_unchecked (wcss : list float) (k_min k_max : Z) :
  match wcss with
  | [] => get_numero_otimo_clusters wcss k_min k_max = Raise IndexError
  | _ :: _ =>
      match get_numero_otimo_clusters wcss k_min k_max with
      | Ok k => k_min <= k < k_min + Z.of_nat (length wcss)
      | Raise e => arithmetic_exn e
      end
  end.
Proof.
  destruct wcss as [|y1 rest]; [reflexivity|].
  pose proof (knee_cases y1 rest k_min k_max) as H. cbv zeta in H.
  destruct (distancias (y1 :: rest) k_min k_max) as [ds|e].
  - destruct H as (Hl & _ & i & Hi & ->).
    apply first_max_lt in Hi. lia.
  - destruct H as [He ->]. exact He.
Qed.

End KneeClaims.

(** ** Runs of the Knee Selector *)

Section KneeRuns.

Example knee_curve_4 : get_numero_otimo_clusters wcss_curve 2 10 = Ok 4.
Proof. vm_compute. reflexivity. Qed.

Example wcss_curve_moderate : moderate_inputs wcss_curve 2 10 = true.
Proof. vm_compute. reflexivity. Qed.

(** Ties go to the lowest k: on a straight line every distance is zero. *)
Example knee_tie_lowest :
  get_numero_otimo_clusters [30; 20; 10]%float 2 4 = Ok 2.
Proof. vm_compute. reflexivity. Qed.


Lemma knee_result_in_range_witness :
  match get_numero_otimo_clusters wcss_curve 2 10 with
  | Ok k => 2 <= k <= 10
  | Raise e => arithmetic_exn e
  end /\
  (moderate_inputs wcss_curve 2 10 = true ->
   exists k, get_numero_otimo_clusters wcss_curve 2 10 = Ok k /\
     2 <= k <= 10).
Proof.
  apply (knee_result_in_range wcss_curve 2 10).
  - reflexivity.
  - reflexivity.
Defined.

(** C2 fails on the spec's own scenario: [k_min = k_max = 5]. *)
Lemma knee_degenerate_counterexample :
  get_numero_otimo_clusters [100]%float 5 5 = Raise ZeroDivisionError /\
  get_numero_otimo_clusters [100]%float 5 5 <> Ok 5.
Proof.
  split; [vm_compute; reflexivity|].
  vm_compute. discriminate.
Qed.

Lemma knee_degenerate_raises_witness :
  exists e,
    get_numero_otimo_clusters [100]%float 5 5 = Raise e /\
    (e = ZeroDivisionError \/ e = OverflowError) /\
    (Z.abs 5 < 2 ^ 63 -> e = ZeroDivisionError).
Proof.
  apply (knee_degenerate_raises 100 5). reflexivity.
Defined.

(** C8 fails: three values for the range 2..10 are accepted. *)
Lemma knee_length_counterexample :
  Z.of_nat (length [10; 4; 1]%float) <> 10 - 2 + 1 /\
  get_numero_otimo_clusters [10; 4; 1]%float 2 10 = Ok 4.
Proof.
  split; [vm_compute; discriminate|].
  vm_compute. reflexivity.
Qed.

End KneeRuns.

(** ** Lists: traversal and stable sorting *)

Section Lists.

Context {A B C : Type}.

Lemma traverse_length (f : A -> result B) l : forall l',
  traverse f l = Ok l' -> length l' = length l.
Proof.
  induction l as [|a l IH]; intros l' H; simpl in H.
  - now injection H as <-.
  - apply bind_ok in H as (b & _ & H).
    apply bind_ok in H as (bs & Hbs & H). injection H as <-.
    simpl. f_equal. now apply IH.
Qed.

Lemma traverse_map (f : B -> result C) (g : A -> B) l :
  traverse f (map g l) = traverse (fun a => f (g a)) l.
Proof.
  induction l as [|a l IH]; simpl; [reflexivity|]. now rewrite IH.
Qed.

Lemma traverse_total (f : A -> result B) (g : A -> B) l :
  (forall a, f a = Ok (g a)) -> traverse f l = Ok (map g l).
Proof.
  intros H. induction l as [|a l IH]; simpl; [reflexivity|].
  now rewrite H, IH.
Qed.

Lemma traverse_bind_map (f : A -> result B) (g : B -> C) l :
  traverse (fun a => b <- f a ;; Ok (g b)) l
  = (bs <- traverse f l ;; Ok (map g bs)).
Proof.
  induction l as [|a l IH]; simpl; [reflexivity|].
  rewrite IH. destruct (f a); simpl; [|reflexivity].
  destruct (traverse f l); reflexivity.
Qed.

Lemma traverse_raises (f : A -> result B) (P : exn -> Prop) l e :
  (forall a e', f a = Raise e' -> P e') -> traverse f l = Raise e -> P e.
Proof.
  intros Hf. induction l as [|a l IH]; simpl; [discriminate|].
  intros H. apply bind_raise in H as [H|(b & _ & H)]; [eauto|].
  apply bind_raise in H as [H|(bs & _ & H)]; [eauto|discriminate].
Qed.

Variable le : A -> A -> bool.

Lemma insert_perm x l : Permutation (insert le x l) (x :: l).
Proof.
  induction l as [|y l IH]; simpl; [reflexivity|].
  destruct (le x y); [reflexivity|].
  rewrite IH. apply perm_swap.
Qed.

Lemma sort_by_perm l : Permutation (sort_by le l) l.
Proof.
  induction l as [|x l IH]; simpl; [reflexivity|].
  rewrite insert_perm. now constructor.
Qed.

Lemma sort_by_length l : length (sort_by le l) = length l.
Proof. apply Permutation_length, sort_by_perm. Qed.

Hypothesis le_total : forall a b, le a b = false -> le b a = true.
Hypothesis le_trans :
  forall a b c, le a b = true -> le b c = true -> le a c = true.

Lemma insert_sorted x l :
  StronglySorted (fun a b => le a b = true) l ->
  StronglySorted (fun a b => le a b = true) (insert le x l).
Proof.
  induction 1 as [|y l Hs IH Hy]; simpl.
  - constructor; constructor.
  - destruct (le x y) eqn:E.
    + constructor; [now constructor|].
      constructor; [assumption|].
      eapply Forall_impl; [|exact Hy]. intros z Hz. eauto.
    + constructor; [assumption|].
      eapply Permutation_Forall.
      * symmetry. apply insert_perm.
      * constructor; [now apply le_total|assumption].
Qed.

Lemma sort_by_sorted l :
  StronglySorted (fun a b => le a b = true) (sort_by le l).
Proof.
  induction l as [|x l IH]; simpl; [constructor|].
  now apply insert_sorted.
Qed.

End Lists.

Section SortMap.

Context {A B : Type} (le : A -> A -> bool) (le' : B -> B -> bool)
  (f : A -> B).
Hypothesis le_f : forall a b, le' (f a) (f b) = le a b.

Lemma insert_map x l : insert le' (f x) (map f l) = map f (insert le x l).
Proof.
  induction l as [|y l IH]; simpl; [reflexivity|].
  rewrite le_f. destruct (le x y); simpl; [reflexivity|]. now rewrite IH.
Qed.

Lemma sort_by_map l : sort_by le' (map f l) = map f (sort_by le l).
Proof.
  induction l as [|x l IH]; simpl; [reflexivity|].
  now rewrite IH, insert_map.
Qed.

End SortMap.

Lemma combine_map {A B C} (f : A -> B) (g : A -> C) l :
  combine (map f l) (map g l) = map (fun a => (f a, g a)) l.
Proof. induction l as [|a l IH]; simpl; [reflexivity|]. now rewrite IH. Qed.

(** Sorting a column by a key column is sorting the rows by their key. *)
Lemma sort_keyed {A B} (le : float -> float -> bool) (key : A -> float)
    (h : A -> B) l :
  map snd (sort_by (fun a b : float * B => le (fst a) (fst b))
             (combine (map key l) (map h l)))
  = map h (sort_by (fun a b => le (key a) (key b)) l).
Proof.
  rewrite combine_map.
  rewrite (sort_by_map (fun a b => le (key a) (key b))
             (fun a b : float * B => le (fst a) (fst b))
             (fun a => (key a, h a))) by reflexivity.
  rewrite map_map. reflexivity.
Qed.

(** ** Table operations *)

Section TableOps.

Lemma set_col_append name c df :
  has_col name df = false ->
  set_col name c df =
    if negb (length c =? nrows df)%nat then Raise length_mismatch
    else Ok (df ++ [(name, c)]).
Proof. intros H. unfold set_col. now rewrite H. Qed.

Lemma select_columns names df : forall r,
  select names df = Ok r -> columns r = names.
Proof.
  induction names as [|n names IH]; intros r H; simpl in H.
  - now injection H as <-.
  - apply bind_ok in H as (c & _ & H).
    apply bind_ok in H as (rest & Hrest & H). injection H as <-.
    simpl. f_equal. now apply IH.
Qed.

Lemma filter_eqb_absent (k : Z) l : ~ In k l -> filter (Z.eqb k) l = [].
Proof.
  induction l as [|y l IH]; intros H; [reflexivity|]. simpl.
  destruct (Z.eqb_spec k y) as [->|_].
  - exfalso. apply H. now left.
  - apply IH. intros Hin. apply H. now right.
Qed.

Lemma count_one (k : Z) l :
  NoDup l -> In k l -> length (filter (Z.eqb k) l) = 1%nat.
Proof.
  induction 1 as [|x l Hx Hnd IH]; intros Hin; [contradiction|].
  simpl. destruct (Z.eqb_spec k x) as [->|Hne].
  - now rewrite filter_eqb_absent.
  - destruct Hin as [->|Hin]; [congruence|]. now apply IH.
Qed.

End TableOps.

(** ** The pipeline on an RFM table, step by step *)

Section Run.

Context {libs : Libraries}.

Variable rows : list RFMRow.

Ltac table_eval :=
  cbn [rfm_frame features_frame enriched_frame get_col has_col columns
       existsb map fst snd orb andb negb app nrows bind
       String.eqb Ascii.eqb Bool.eqb].

Ltac set_col_step :=
  rewrite set_col_append by reflexivity;
  table_eval; rewrite ?length_map, ?Nat.eqb_refl; table_eval.

Lemma traverse_cell_log1p {A} (f : A -> Z) (l : list A) :
  traverse cell_log1p (map (fun a => VInt (f a)) l) =
    (fs <- traverse (fun a => Py.float_of_int (f a)) l ;;
     Ok (map (fun x => VFloat (np_log1p x)) fs)).
Proof.
  rewrite traverse_map. unfold cell_log1p. cbn [cell_float].
  apply traverse_bind_map.
Qed.

Lemma build_rfm_features_frame :
  build_rfm_features (rfm_frame rows) =
    (freq <- traverse (fun r => Py.float_of_int (Frequencia r)) rows ;;
     r_inv <- traverse (fun r => Py.float_of_int (- Recencia r)) rows ;;
     Xs <- StandardScaler_fit_transform (features_matrix rows freq r_inv) ;;
     Ok (Xs, features_frame rows freq)).
Proof.
  unfold build_rfm_features. table_eval.
  rewrite traverse_map.
  rewrite (traverse_total _ (fun r => VInt (- Recencia r))) by reflexivity.
  table_eval. set_col_step.
  rewrite traverse_cell_log1p.
  destruct (traverse (fun r => Py.float_of_int (Frequencia r)) rows)
    as [freq|e] eqn:Efreq; [|reflexivity].
  apply traverse_length in Efreq as Hfreq.
  table_eval. rewrite set_col_append by reflexivity.
  table_eval. rewrite !length_map, Hfreq, Nat.eqb_refl. table_eval.
  rewrite traverse_map.
  rewrite (traverse_total _ (fun r => VFloat (np_log1p (Receita r))))
    by reflexivity.
  table_eval. set_col_step.
  unfold feature_values. table_eval.
  rewrite !traverse_map. cbn [cell_float].
  destruct (traverse (fun r => Py.float_of_int (- Recencia r)) rows)
    as [r_inv|e] eqn:Erinv; [|reflexivity].
  table_eval.
  rewrite (traverse_total _ np_log1p) by reflexivity.
  rewrite (traverse_total _ (fun r => np_log1p (Receita r))) by reflexivity.
  reflexivity.
Qed.

Lemma assign_clusters_frame n_clusters random_state :
  assign_clusters (rfm_frame rows) n_clusters random_state =
    (freq <- traverse (fun r => Py.float_of_int (Frequencia r)) rows ;;
     r_inv <- traverse (fun r => Py.float_of_int (- Recencia r)) rows ;;
     Xs <- StandardScaler_fit_transform (features_matrix rows freq r_inv) ;;
     km <- KMeans_fit n_clusters None random_state Xs ;;
     if negb (length (labels_ km) =? length rows)%nat then
       Raise length_mismatch
     else if negb (length Xs =? length rows)%nat then Raise length_mismatch
     else Ok (Xs, enriched_frame rows freq (labels_ km) Xs)).
Proof.
  unfold assign_clusters. rewrite build_rfm_features_frame.
  destruct (traverse (fun r => Py.float_of_int (Frequencia r)) rows)
    as [freq|e]; [|reflexivity]. cbn [bind].
  destruct (traverse (fun r => Py.float_of_int (- Recencia r)) rows)
    as [r_inv|e]; [|reflexivity]. cbn [bind].
  destruct (StandardScaler_fit_transform _) as [Xs|e]; [|reflexivity].
  cbn [bind].
  destruct (KMeans_fit n_clusters None random_state Xs) as [km|e];
    [|reflexivity].
  cbn [bind]. rewrite set_col_append by reflexivity.
  table_eval. rewrite !length_map.
  destruct (length (labels_ km) =? length rows)%nat; [|reflexivity].
  table_eval. rewrite set_col_append by reflexivity.
  table_eval. rewrite !length_map.
  destruct (length Xs =? length rows)%nat; reflexivity.
Qed.

Variables (freq : list float) (cluster_id : list Z) (Xs : matrix).

Hypothesis freq_ok :
  traverse (fun r => Py.float_of_int (Frequencia r)) rows = Ok freq.

Lemma sort_values_aggregate mean median keys cli rec fr rev sc gs :
  sort_values "ScoreComposto_medio"
    (aggregate mean median keys cli rec fr rev sc gs) =
    Ok (aggregate mean median keys cli rec fr rev sc
          (sort_by (fun g h => np_le (mean (group_of g keys sc))
                                     (mean (group_of h keys sc))) gs)).
Proof.
  unfold sort_values, aggregate. table_eval.
  rewrite traverse_map.
  rewrite (traverse_total _ (fun g => mean (group_of g keys sc)))
    by reflexivity.
  table_eval. rewrite !sort_keyed. reflexivity.
Qed.

Lemma length_arange n : length (arange n) = n.
Proof. unfold arange. now rewrite length_map, length_seq. Qed.

Lemma nrows_aggregate mean median keys cli rec fr rev sc gs :
  nrows (aggregate mean median keys cli rec fr rev sc gs) = length gs.
Proof. unfold aggregate. cbn [nrows]. apply length_map. Qed.

Lemma ranked_profile_frame :
  ranked_profile (enriched_frame rows freq cluster_id Xs) =
    (rec <- traverse (fun r => Py.float_of_int (Recencia r)) rows ;;
     Ok (ranked_frame rows freq cluster_id Xs rec)).
Proof.
  unfold ranked_profile, cluster_profile. table_eval.
  rewrite (traverse_map cell_int), (traverse_total _ (fun z => z))
    by reflexivity.
  rewrite map_id. table_eval.
  rewrite !traverse_map. cbn [cell_float].
  destruct (traverse (fun r => Py.float_of_int (Recencia r)) rows)
    as [rec|e]; [|reflexivity].
  rewrite freq_ok. table_eval.
  rewrite (traverse_total _ Receita) by reflexivity.
  rewrite (traverse_total _ row_sum) by reflexivity.
  table_eval. rewrite sort_values_aggregate. table_eval.
  change (sort_by _ (group_keys cluster_id))
    with (ranked_keys cluster_id Xs).
  rewrite set_col_append by reflexivity.
  rewrite nrows_aggregate, length_map, length_arange, Nat.eqb_refl.
  unfold aggregate. table_eval.
  rewrite traverse_map.
  rewrite (traverse_total _ (clientes rows cluster_id)) by reflexivity.
  table_eval. rewrite set_col_append by reflexivity.
  table_eval. rewrite !length_map, Nat.eqb_refl. table_eval.
  rewrite map_map. reflexivity.
Qed.

Lemma traverse_round_cell {A} (f : A -> float) (l : list A) :
  traverse round_cell (map (fun a => VFloat (f a)) l) =
    Ok (map (fun a => VFloat (np_round2 (f a))) l).
Proof.
  rewrite traverse_map. now apply traverse_total.
Qed.

Lemma round_display_frame rec :
  round_display (ranked_frame rows freq cluster_id Xs rec) =
    Ok (display_frame rows freq cluster_id Xs rec).
Proof.
  unfold ranked_frame, display_frame, profile_frame, aggregate.
  cbn [app round_display].
  change (display_col "ClusterId") with false.
  change (display_col "Clientes") with false.
  change (display_col "Recencia_media") with true.
  change (display_col "Recencia_mediana") with true.
  change (display_col "Frequencia_media") with true.
  change (display_col "Frequencia_mediana") with true.
  change (display_col "Receita_media") with true.
  change (display_col "Receita_mediana") with true.
  change (display_col "ScoreComposto_medio") with true.
  change (display_col "RankQualidade") with false.
  change (display_col "PctBase") with false.
  cbv iota. rewrite !traverse_round_cell. reflexivity.
Qed.

Lemma ranked_keys_perm :
  Permutation (ranked_keys cluster_id Xs) (nodup Z.eq_dec cluster_id).
Proof.
  unfold ranked_keys, group_keys. now rewrite !sort_by_perm.
Qed.

Lemma ranked_keys_NoDup : NoDup (ranked_keys cluster_id Xs).
Proof.
  eapply Permutation_NoDup; [symmetry; apply ranked_keys_perm|].
  apply NoDup_nodup.
Qed.

Lemma ranked_keys_In k : In k (ranked_keys cluster_id Xs) <-> In k cluster_id.
Proof.
  rewrite <- (nodup_In Z.eq_dec cluster_id k). split; apply Permutation_in.
  - apply ranked_keys_perm.
  - symmetry. apply ranked_keys_perm.
Qed.

(** A row of the left table whose key occurs once on the right is kept
    once. *)
Lemma expand_left_id (rk : list Z) : forall (lk : list Z) (c : column),
  (forall k, In k lk -> length (filter (Z.eqb k) rk) = 1%nat) ->
  length c = length lk ->
  flat_map (fun '(k, v) => repeat v (Nat.max 1 (length (filter (Z.eqb k) rk))))
           (combine lk c) = c.
Proof.
  induction lk as [|k lk IH]; intros [|v c] Hone Hlen; simpl in *;
    try reflexivity; try discriminate.
  rewrite (Hone k) by now left. simpl. f_equal.
  apply IH; [|lia]. intros k' Hk'. apply Hone. now right.
Qed.

Hypothesis cluster_id_length : length cluster_id = length rows.
Hypothesis Xs_length : length Xs = length rows.

Lemma ranked_keys_count k :
  In k cluster_id ->
  length (filter (Z.eqb k) (ranked_keys cluster_id Xs)) = 1%nat.
Proof.
  intros Hk. apply count_one; [apply ranked_keys_NoDup|].
  now apply ranked_keys_In.
Qed.

Lemma select_ranks rec :
  select ["ClusterId"; "RankQualidade"]%string
    (ranked_frame rows freq cluster_id Xs rec) =
    Ok (ranks_frame cluster_id Xs).
Proof. reflexivity. Qed.

Lemma merge_ranks :
  merge_left (enriched_frame rows freq cluster_id Xs)
    (ranks_frame cluster_id Xs) "ClusterId" =
    Ok (enriched_frame rows freq cluster_id Xs ++
        [("RankQualidade"%string, joined_ranks cluster_id Xs)]).
Proof.
  pose proof (traverse_length _ _ _ freq_ok) as Hfreq.
  unfold merge_left, ranks_frame. table_eval.
  rewrite !(traverse_map cell_int), !(traverse_total _ (fun z => z))
    by reflexivity.
  rewrite !map_id. cbn [bind drop filter]. table_eval.
  rewrite !(expand_left_id (ranked_keys cluster_id Xs))
    by first [ exact ranked_keys_count
             | rewrite ?length_map; congruence ].
  reflexivity.
Qed.

Lemma select_customers :
  select cols
    (drop ["R_inv"; "F_log"; "M_log"]%string
       (enriched_frame rows freq cluster_id Xs ++
        [("RankQualidade"%string, joined_ranks cluster_id Xs)])) =
    Ok (customers_frame rows cluster_id Xs).
Proof. reflexivity. Qed.

End Run.

Section JointRun.

Context {libs : Libraries}.

(** A run of [cluster_rfm_joint] on an RFM table, as the sequence of the
    steps that can raise and the two tables of a run that raises nothing. *)
Lemma cluster_rfm_joint_frame rows n_clusters random_state :
  cluster_rfm_joint (rfm_frame rows) n_clusters random_state =
    (freq <- traverse (fun r => Py.float_of_int (Frequencia r)) rows ;;
     r_inv <- traverse (fun r => Py.float_of_int (- Recencia r)) rows ;;
     Xs <- StandardScaler_fit_transform (features_matrix rows freq r_inv) ;;
     km <- KMeans_fit n_clusters None random_state Xs ;;
     if negb (length (labels_ km) =? length rows)%nat then
       Raise length_mismatch
     else if negb (length Xs =? length rows)%nat then Raise length_mismatch
     else
       rec <- traverse (fun r => Py.float_of_int (Recencia r)) rows ;;
       Ok (customers_frame rows (labels_ km) Xs,
           display_frame rows freq (labels_ km) Xs rec)).
Proof.
  unfold cluster_rfm_joint. rewrite assign_clusters_frame.
  destruct (traverse (fun r => Py.float_of_int (Frequencia r)) rows)
    as [freq|e] eqn:Efreq; [|reflexivity]. cbn [bind].
  destruct (traverse (fun r => Py.float_of_int (- Recencia r)) rows)
    as [r_inv|e]; [|reflexivity]. cbn [bind].
  destruct (StandardScaler_fit_transform _) as [Xs|e]; [|reflexivity].
  cbn [bind].
  destruct (KMeans_fit n_clusters None random_state Xs) as [km|e];
    [|reflexivity].
  cbn [bind].
  destruct (Nat.eqb_spec (length (labels_ km)) (length rows)) as [Hl|_];
    [|reflexivity]. cbn [negb].
  destruct (Nat.eqb_spec (length Xs) (length rows)) as [HX|_];
    [|reflexivity]. cbn [negb bind].
  rewrite (ranked_profile_frame rows freq (labels_ km) Xs Efreq).
  destruct (traverse (fun r => Py.float_of_int (Recencia r)) rows)
    as [rec|e]; [|reflexivity]. cbn [bind].
  rewrite select_ranks. cbn [bind].
  rewrite (merge_ranks rows freq (labels_ km) Xs Efreq Hl HX). cbn [bind].
  rewrite select_customers. cbn [bind].
  rewrite round_display_frame. reflexivity.
Qed.

End JointRun.

(** ** Claims on the per-customer table *)

Section CustomerClaims.

Context {libs : Libraries}.

(** What a run that raised nothing went through. *)
Lemma cluster_rfm_joint_ok rows n_clusters random_state enriched prof :
  cluster_rfm_joint (rfm_frame rows) n_clusters random_state
    = Ok (enriched, prof) ->
  exists freq r_inv Xs km rec,
    traverse (fun r => Py.float_of_int (Frequencia r)) rows = Ok freq /\
    traverse (fun r => Py.float_of_int (- Recencia r)) rows = Ok r_inv /\
    StandardScaler_fit_transform (features_matrix rows freq r_inv) = Ok Xs /\
    KMeans_fit n_clusters None random_state Xs = Ok km /\
    length (labels_ km) = length rows /\
    length Xs = length rows /\
    traverse (fun r => Py.float_of_int (Recencia r)) rows = Ok rec /\
    enriched = customers_frame rows (labels_ km) Xs /\
    prof = display_frame rows freq (labels_ km) Xs rec.
Proof.
  rewrite cluster_rfm_joint_frame. intros H.
  apply bind_ok in H as (freq & Hfreq & H).
  apply bind_ok in H as (r_inv & Hrinv & H).
  apply bind_ok in H as (Xs & HXs & H).
  apply bind_ok in H as (km & Hkm & H).
  destruct (Nat.eqb_spec (length (labels_ km)) (length rows)) as [Hl|_];
    [|discriminate]. cbn [negb] in H.
  destruct (Nat.eqb_spec (length Xs) (length rows)) as [HX|_];
    [|discriminate]. cbn [negb] in H.
  apply bind_ok in H as (rec & Hrec & H).
  injection H as <- <-.
  exists freq, r_inv, Xs, km, rec. repeat (split; [assumption|]).
  split; reflexivity.
Qed.

Lemma build_rfm_features_ok rows freq r_inv Xs :
  traverse (fun r => Py.float_of_int (Frequencia r)) rows = Ok freq ->
  traverse (fun r => Py.float_of_int (- Recencia r)) rows = Ok r_inv ->
  StandardScaler_fit_transform (features_matrix rows freq r_inv) = Ok Xs ->
  build_rfm_features (rfm_frame rows) = Ok (Xs, features_frame rows freq).
Proof.
  intros Hf Hr HX. rewrite build_rfm_features_frame, Hf. cbn [bind].
  rewrite Hr. cbn [bind]. now rewrite HX.
Qed.

(** C4.  The per-customer table of a run that succeeds has exactly the
    columns Cliente, Recencia, Frequencia, Receita, ClusterId, RankQualidade
    and ScoreComposto; the feature columns R_inv, F_log and M_log, which
    [build_rfm_features] added, are not among them. *)
Theorem joint_output_columns rows n_clusters random_state enriched prof :
  cluster_rfm_joint (rfm_frame rows) n_clusters random_state
    = Ok (enriched, prof) ->
  columns enriched =
    ["Cliente"; "Recencia"; "Frequencia"; "Receita"; "ClusterId";
     "RankQualidade"; "ScoreComposto"]%string /\
  has_col "R_inv" enriched = false /\
  has_col "F_log" enriched = false /\
  has_col "M_log" enriched = false /\
  (exists Xs out,
     build_rfm_features (rfm_frame rows) = Ok (Xs, out) /\
     has_col "R_inv" out = true /\
     has_col "F_log" out = true /\
     has_col "M_log" out = true).
Proof.
  intros H.
  apply cluster_rfm_joint_ok in H
    as (freq & r_inv & Xs & km & rec & Hf & Hr & HX & _ & _ & _ & _ & -> & _).
  repeat (split; [reflexivity|]).
  exists Xs, (features_frame rows freq).
  split; [now apply (build_rfm_features_ok rows freq r_inv)|].
  repeat split; reflexivity.
Qed.

End CustomerClaims.


(** ** Claims on the cluster profile *)

Section ProfileClaims.

Context {libs : Libraries}.







End ProfileClaims.

(** ** Rounded shares *)

Section Shares.






End Shares.

(** ** Customer counts of the clusters *)

Section Counts.

Lemma clientes_occurrences rows : forall cluster_id g,
  length cluster_id = length rows ->
  clientes rows cluster_id g = Z.of_nat (occurrences g cluster_id).
Proof.
  unfold clientes, occurrences, group_of.
  induction rows as [|r rows IH]; intros [|k ks] g Hlen;
    try discriminate; [reflexivity|].
  cbn [map combine filter fst]. injection Hlen as Hlen.
  specialize (IH ks g Hlen).
  destruct (Z.eqb k g); cbn [map snd filter notna length];
    rewrite ?Nat2Z.inj_succ; lia.
Qed.





End Counts.

Section ShareClaims.

Context {libs : Libraries}.


End ShareClaims.

(** ** Too many clusters *)

Section TooManyClusters.

Context {libs : Libraries}.

Lemma features_matrix_length rows freq r_inv :
  length freq = length rows -> length r_inv = length rows ->
  length (features_matrix rows freq r_inv) = length rows.
Proof.
  intros Hf Hr. unfold features_matrix.
  rewrite !length_combine, !length_map. lia.
Qed.


End TooManyClusters.

(** ** The Elbow Evaluator *)

Section Elbow.

Context {libs : Libraries}.

(** [calcular_wcss] returns the inertia of one 20-start fit per [k], in
    ascending [k]; the order of the values is the order of the fits. *)
Lemma wcss_loop_inertias Xs random_state n : forall k wcss,
  wcss_loop Xs random_state k n = Ok wcss ->
  length wcss = n /\
  forall i y, nth_error wcss i = Some y ->
    exists km,
      KMeans_fit (k + Z.of_nat i) (Some 20) random_state Xs = Ok km /\
      y = inertia_ km.
Proof.
  induction n as [|n IH]; intros k wcss H; simpl in H.
  - injection H as <-. split; [reflexivity|]. intros [|i] y Hy; discriminate.
  - apply bind_ok in H as (km & Hkm & H).
    apply bind_ok in H as (rest & Hrest & H). injection H as <-.
    destruct (IH _ _ Hrest) as [Hlen Hnth]. split; [simpl; congruence|].
    intros [|i] y Hy; simpl in Hy.
    + injection Hy as <-. exists km. now rewrite Z.add_0_r.
    + destruct (Hnth i y Hy) as (km' & Hkm' & ->). exists km'.
      split; [|reflexivity].
      now replace (k + Z.of_nat (S i)) with (k + 1 + Z.of_nat i) by lia.
Qed.

Lemma calcular_wcss_inertias Xs k_min k_max random_state wcss :
  calcular_wcss Xs k_min k_max random_state = Ok wcss ->
  Z.of_nat (length wcss) = Z.max 0 (k_max - k_min + 1) /\
  forall i y, nth_error wcss i = Some y ->
    exists km,
      KMeans_fit (k_min + Z.of_nat i) (Some 20) random_state Xs = Ok km /\
      y = inertia_ km.
Proof.
  unfold calcular_wcss. intros H.
  apply wcss_loop_inertias in H as [Hlen Hnth]. split; [lia|assumption].
Qed.

End Elbow.

(** ** Runs of the Joint Clusterer on the sample *)

Section SampleRuns.

Lemma sample_run_ok :
  @cluster_rfm_joint sample_libs (rfm_frame sample_rows) 2 42
    = Ok (sample_enriched, sample_profile).
Proof. vm_compute. reflexivity. Defined.

(** The three recent, frequent, high-value customers get the higher rank. *)
Example sample_ranks :
  get_col "RankQualidade" sample_enriched
    = Ok [VInt 1; VInt 1; VInt 1; VInt 0; VInt 0; VInt 0] /\
  get_col "PctBase" sample_profile = Ok [VDec (5000 # 10000); VDec (5000 # 10000)].
Proof. split; vm_compute; reflexivity. Qed.

Lemma joint_output_columns_witness :
  @cluster_rfm_joint sample_libs (rfm_frame sample_rows) 2 42
    = Ok (sample_enriched, sample_profile) /\
  columns sample_enriched =
    ["Cliente"; "Recencia"; "Frequencia"; "Receita"; "ClusterId";
     "RankQualidade"; "ScoreComposto"]%string.
Proof.
  split; [exact sample_run_ok|].
  exact (proj1 (@joint_output_columns sample_libs sample_rows 2 42
                  sample_enriched sample_profile sample_run_ok)).
Defined.




Lemma sample_libs_checks_samples : KMeans_checks_samples sample_libs.
Proof.
  intros k n_init seed X H. cbn. apply Z.ltb_lt in H. now rewrite H.
Qed.

Lemma sample_libs_keeps_rows : scaler_keeps_rows sample_libs.
Proof. intros X Xs H. cbn in H. now injection H as <-. Qed.



End SampleRuns.

(** * Further properties *)

(** ** The rank joined to the customers *)

Section RankJoin.

Lemma group_of_absent {A} (k : Z) (l : list Z) : forall c : list A,
  ~ In k l -> group_of k l c = [].
Proof.
  unfold group_of. induction l as [|a l IH]; intros c Hk; [reflexivity|].
  destruct c as [|v c]; [reflexivity|]. cbn [combine filter fst].
  destruct (Z.eqb_spec a k) as [->|_]; [exfalso; apply Hk; now left|].
  apply IH. intros H. apply Hk. now right.
Qed.

(** In a list of distinct keys numbered from [off], the group of the key at
    index [i] is its number alone. *)
Lemma group_of_index (l : list Z) : NoDup l -> forall k i off,
  nth_error l i = Some k ->
  group_of k l (map VInt (map Z.of_nat (seq off (length l))))
  = [VInt (Z.of_nat (off + i))].
Proof.
  induction 1 as [|a l Ha Hl IH]; intros k i off Hi.
  - destruct i; discriminate.
  - cbn [length seq map]. unfold group_of. cbn [combine filter fst].
    destruct i as [|i]; cbn [nth_error] in Hi.
    + injection Hi as ->. rewrite Z.eqb_refl. cbn [map snd].
      fold (group_of k l (map VInt (map Z.of_nat (seq (S off) (length l))))).
      rewrite group_of_absent by assumption. now rewrite Nat.add_0_r.
    + destruct (Z.eqb_spec a k) as [->|_].
      { exfalso. apply Ha. eapply nth_error_In; eassumption. }
      fold (group_of k l (map VInt (map Z.of_nat (seq (S off) (length l))))).
      rewrite (IH k i (S off) Hi). do 2 f_equal. lia.
Qed.

(** Each key of [ks] is joined to one number: its position in [keys]. *)
Lemma ranks_of_keys (keys : list Z) : NoDup keys -> forall ks,
  (forall g, In g ks -> In g keys) ->
  exists ranks,
    flat_map (fun k =>
                match group_of k keys (map VInt (arange (length keys))) with
                | [] => [VFloat nan]
                | vs => vs
                end) ks = map VInt ranks /\
    length ranks = length ks /\
    forall i g r, nth_error ks i = Some g -> nth_error ranks i = Some r ->
      0 <= r /\ nth_error keys (Z.to_nat r) = Some g.
Proof.
  intros Hnd. induction ks as [|k ks IH]; intros Hin.
  - exists []. split; [reflexivity|]. split; [reflexivity|].
    intros [|i] g r Hg; discriminate.
  - destruct IH as (ranks & E & Hlen & Hspec).
    { intros g Hg. apply Hin. now right. }
    destruct (In_nth_error keys k (Hin k (or_introl eq_refl))) as [i Hi].
    exists (Z.of_nat i :: ranks). cbn [flat_map map length].
    unfold arange in *. rewrite (group_of_index keys Hnd k i 0 Hi), E.
    split; [reflexivity|]. split; [now rewrite Hlen|].
    intros [|j] g r Hg Hr; cbn [nth_error] in Hg, Hr.
    + injection Hg as <-. injection Hr as <-.
      rewrite Nat2Z.id. split; [lia|assumption].
    + eapply Hspec; eassumption.
Qed.

Context {libs : Libraries}.

Lemma joined_ranks_spec (cluster_id : list Z) (Xs : matrix) :
  exists ranks,
    joined_ranks cluster_id Xs = map VInt ranks /\
    length ranks = length cluster_id /\
    forall i g r, nth_error cluster_id i = Some g ->
      nth_error ranks i = Some r ->
      0 <= r /\ nth_error (ranked_keys cluster_id Xs) (Z.to_nat r) = Some g.
Proof.
  apply ranks_of_keys; [apply ranked_keys_NoDup|].
  intros g. apply ranked_keys_In.
Qed.

End RankJoin.

Section JoinedTable.

Context {libs : Libraries}.

(** X1.  In a run that succeeds every customer is joined to exactly one rank,
    that of its own cluster: the per-customer table has one row per customer
    of the RFM table, and the RankQualidade of customer [i] is the integer
    [r] for which row [r] of the profile has the customer's ClusterId.  The
    left join leaves no rank missing and repeats no customer. *)
Theorem customer_rank_is_cluster_rank rows n_clusters random_state enriched
    prof :
  cluster_rfm_joint (rfm_frame rows) n_clusters random_state
    = Ok (enriched, prof) ->
  exists labels keys ranks,
    get_col "ClusterId" enriched = Ok (map VInt labels) /\
    get_col "ClusterId" prof = Ok (map VInt keys) /\
    get_col "RankQualidade" prof = Ok (map VInt (arange (length keys))) /\
    get_col "RankQualidade" enriched = Ok (map VInt ranks) /\
    nrows enriched = length rows /\
    length labels = length rows /\
    length ranks = length rows /\
    forall i g r, nth_error labels i = Some g -> nth_error ranks i = Some r ->
      0 <= r < Z.of_nat (length keys) /\
      nth_error keys (Z.to_nat r) = Some g.
Proof.
  intros H.
  apply cluster_rfm_joint_ok in H
    as (freq & r_inv & Xs & km & rec & _ & _ & _ & _ & Hl & _ & _ & -> & ->).
  destruct (joined_ranks_spec (labels_ km) Xs) as (ranks & E & Hlen & Hspec).
  exists (labels_ km), (ranked_keys (labels_ km) Xs), ranks.
  split; [reflexivity|]. split; [reflexivity|]. split; [reflexivity|].
  split; [cbn; now rewrite E|].
  split; [cbn; now rewrite length_map|].
  split; [assumption|]. split; [congruence|].
  intros i g r Hg Hr. destruct (Hspec i g r Hg Hr) as [H0 Hk].
  split; [|assumption]. split; [assumption|].
  assert (Z.to_nat r < length (ranked_keys (labels_ km) Xs))%nat
    by (apply nth_error_Some; congruence).
  lia.
Qed.

(** X2.  The profile of a run that succeeds has one row per distinct cluster
    label given to the customers, and the Clientes of a row is the number of
    customers with that label. *)
Theorem profile_row_per_cluster rows n_clusters random_state enriched prof :
  cluster_rfm_joint (rfm_frame rows) n_clusters random_state
    = Ok (enriched, prof) ->
  exists labels keys,
    get_col "ClusterId" enriched = Ok (map VInt labels) /\
    get_col "ClusterId" prof = Ok (map VInt keys) /\
    nrows prof = length keys /\
    NoDup keys /\
    (forall g, In g keys <-> In g labels) /\
    get_col "Clientes" prof
      = Ok (map (fun g => VInt (Z.of_nat (occurrences g labels))) keys).
Proof.
  intros H.
  apply cluster_rfm_joint_ok in H
    as (freq & r_inv & Xs & km & rec & _ & _ & _ & _ & Hl & _ & _ & -> & ->).
  exists (labels_ km), (ranked_keys (labels_ km) Xs).
  split; [reflexivity|]. split; [reflexivity|].
  split; [cbn; now rewrite length_map|].
  split; [apply ranked_keys_NoDup|].
  split; [intros g; apply ranked_keys_In|].
  cbn. f_equal. apply map_ext. intros g. f_equal.
  now apply clientes_occurrences.
Qed.

(** X6.  The per-customer table of a run that succeeds returns the columns
    Cliente, Recencia, Frequencia and Receita of the RFM table as they were
    given: same customers, same order, values neither rounded nor
    transformed. *)
Theorem joint_keeps_rfm_columns rows n_clusters random_state enriched prof :
  cluster_rfm_joint (rfm_frame rows) n_clusters random_state
    = Ok (enriched, prof) ->
  forall name, In name ["Cliente"; "Recencia"; "Frequencia"; "Receita"]%string ->
    get_col name enriched = get_col name (rfm_frame rows) /\
    exists c, get_col name enriched = Ok c /\ length c = length rows.
Proof.
  intros H name Hname.
  apply cluster_rfm_joint_ok in H
    as (freq & r_inv & Xs & km & rec & _ & _ & _ & _ & _ & _ & _ & -> & _).
  cbn [In] in Hname.
  destruct Hname as [<-|[<-|[<-|[<-|[]]]]];
    (split; [reflexivity|]); eexists; (split; [reflexivity|]);
    apply length_map.
Qed.

End JoinedTable.

(** ** The aggregates of the profile *)

Section ProfileAggregates.

Context {libs : Libraries}.


End ProfileAggregates.

(** ** The shares of the customer base *)

Section ShareBounds.

Context {libs : Libraries}.





End ShareBounds.

(** ** The rounding for display *)

Section Display.





End Display.

(** ** The features *)

Section Features.

Context {libs : Libraries}.

Lemma get_col_missing name df :
  has_col name df = false -> get_col name df = Raise (KeyError name).
Proof.
  unfold has_col, columns. induction df as [|[n c] df IH]; [reflexivity|].
  cbn [map fst existsb get_col]. intros H.
  apply orb_false_elim in H as [Hn H]. rewrite Hn. now apply IH.
Qed.




End Features.

(** ** Missing columns *)

Section MissingColumns.

Context {libs : Libraries}.

(** X8.  A table without a Recencia column is refused with [KeyError] on
    [Recencia] by [build_rfm_features], and so by the joint clustering, by
    the automatic choice of k and by the run of the application, before
    anything is fitted. *)
Theorem recencia_column_required df n_clusters random_state :
  has_col "Recencia" df = false ->
  build_rfm_features df = Raise (KeyError "Recencia") /\
  cluster_rfm_joint df n_clusters random_state
    = Raise (KeyError "Recencia") /\
  chosen_k df None random_state = Raise (KeyError "Recencia") /\
  (forall mode, run_clustering df mode random_state
                = Raise (KeyError "Recencia")).
Proof.
  intros H.
  assert (Hb : build_rfm_features df = Raise (KeyError "Recencia")).
  { unfold build_rfm_features. now rewrite (get_col_missing _ _ H). }
  assert (Hj : forall k, cluster_rfm_joint df k random_state
                         = Raise (KeyError "Recencia")).
  { intros k. unfold cluster_rfm_joint, assign_clusters. now rewrite Hb. }
  assert (Hk : chosen_k df None random_state = Raise (KeyError "Recencia")).
  { unfold chosen_k. now rewrite Hb. }
  repeat (split; [easy|]).
  intros [k|]; unfold run_clustering.
  - cbn [chosen_k bind]. apply Hj.
  - now rewrite Hk.
Qed.

End MissingColumns.

(** ** The Elbow Evaluator and the choice of k *)

Section ChoiceOfK.

Context {libs : Libraries}.

Lemma wcss_loop_raises Xs random_state n : forall k e,
  wcss_loop Xs random_state k n = Raise e ->
  exists i, (i < n)%nat /\
    KMeans_fit (k + Z.of_nat i) (Some 20) random_state Xs = Raise e /\
    forall j, (j < i)%nat ->
      exists km, KMeans_fit (k + Z.of_nat j) (Some 20) random_state Xs = Ok km.
Proof.
  induction n as [|n IH]; intros k e H; cbn [wcss_loop] in H; [discriminate|].
  apply bind_raise in H as [H|(km & Hkm & H)].
  - exists 0%nat. rewrite Z.add_0_r. split; [lia|]. split; [assumption|].
    intros j Hj. lia.
  - apply bind_raise in H as [H|(rest & _ & H)]; [|discriminate].
    destruct (IH _ _ H) as (i & Hi & He & Hbefore).
    exists (S i). split; [lia|].
    replace (k + Z.of_nat (S i)) with (k + 1 + Z.of_nat i) by lia.
    split; [assumption|].
    intros [|j] Hj.
    + exists km. now rewrite Z.add_0_r.
    + destruct (Hbefore j) as [km' Hkm']; [lia|]. exists km'.
      now replace (k + Z.of_nat (S j)) with (k + 1 + Z.of_nat j) by lia.
Qed.

(** X9.  [calcular_wcss] fits one 20-start KMeans per k from [k_min] to
    [k_max], in ascending order.  When every fit succeeds it returns their
    inertias, [k_max - k_min + 1] values in the order of k (none for an empty
    range).  Otherwise it raises what the first failing fit raised, and
    returns no partial list.  On the empty list of an empty range the Knee
    Selector raises [IndexError]. *)
Theorem wcss_one_inertia_per_k Xs k_min k_max random_state :
  match calcular_wcss Xs k_min k_max random_state with
  | Ok wcss =>
      Z.of_nat (length wcss) = Z.max 0 (k_max - k_min + 1) /\
      forall i y, nth_error wcss i = Some y ->
        exists km,
          KMeans_fit (k_min + Z.of_nat i) (Some 20) random_state Xs = Ok km /\
          y = inertia_ km
  | Raise e =>
      exists k, k_min <= k <= k_max /\
        KMeans_fit k (Some 20) random_state Xs = Raise e /\
        forall k', k_min <= k' < k ->
          exists km, KMeans_fit k' (Some 20) random_state Xs = Ok km
  end /\
  (k_max < k_min ->
   calcular_wcss Xs k_min k_max random_state = Ok [] /\
   get_numero_otimo_clusters [] k_min k_max = Raise IndexError).
Proof.
  split.
  - destruct (calcular_wcss Xs k_min k_max random_state) as [wcss|e] eqn:E.
    + now apply calcular_wcss_inertias.
    + unfold calcular_wcss in E.
      apply wcss_loop_raises in E as (i & Hi & He & Hbefore).
      exists (k_min + Z.of_nat i). split; [lia|]. split; [assumption|].
      intros k' Hk'. destruct (Hbefore (Z.to_nat (k' - k_min))) as [km Hkm];
        [lia|].
      exists km. now replace k' with (k_min + Z.of_nat (Z.to_nat (k' - k_min)))
        by lia.
  - intros Hk. split; [|reflexivity]. unfold calcular_wcss.
    now replace (Z.to_nat (k_max + 1 - k_min)) with 0%nat by lia.
Qed.

(** X10.  In the automatic mode the application standardizes the features of
    the RFM table, computes the WCSS of k = 2..10 (nine values) and takes
    their knee: a k it passes to the joint clustering lies between 2 and
    10.  In the manual mode the k of the form is passed as it is. *)
Theorem automatic_k_in_range rfm_table random_state r :
  run_clustering rfm_table None random_state = Ok r ->
  exists Xs out wcss k,
    build_rfm_features rfm_table = Ok (Xs, out) /\
    calcular_wcss Xs 2 10 random_state = Ok wcss /\
    length wcss = 9%nat /\
    get_numero_otimo_clusters wcss 2 10 = Ok k /\
    2 <= k <= 10 /\
    cluster_rfm_joint rfm_table k random_state = Ok r /\
    forall k', run_clustering rfm_table (Some k') random_state
               = cluster_rfm_joint rfm_table k' random_state.
Proof.
  unfold run_clustering, chosen_k. intros H.
  apply bind_ok in H as (k & Hk & H).
  apply bind_ok in Hk as ([Xs out] & HXs & Hk).
  apply bind_ok in Hk as (wcss & Hw & Hk).
  exists Xs, out, wcss, k.
  pose proof (calcular_wcss_inertias _ _ _ _ _ Hw) as [Hlen _].
  assert (Hl9 : length wcss = 9%nat) by lia.
  repeat (split; [assumption|]).
  split; [|split; [assumption|reflexivity]].
  destruct wcss as [|y1 rest]; [discriminate|].
  pose proof (knee_cases y1 rest 2 10) as Hc. cbv zeta in Hc.
  destruct (distancias (y1 :: rest) 2 10) as [ds|e].
  - destruct Hc as (Hl & _ & i & Hi & E).
    assert (Ek : k = 2 + Z.of_nat i) by congruence.
    apply first_max_lt in Hi. rewrite Hl, Hl9 in Hi. lia.
  - destruct Hc as [_ E]. rewrite E in Hk. discriminate.
Qed.

(** A fit that raises within the range makes [wcss_loop] raise. *)
Lemma wcss_loop_fails Xs random_state n : forall k i e,
  (i < n)%nat ->
  KMeans_fit (k + Z.of_nat i) (Some 20) random_state Xs = Raise e ->
  exists e', wcss_loop Xs random_state k n = Raise e'.
Proof.
  induction n as [|n IH]; intros k i e Hi He; [lia|]. cbn [wcss_loop].
  destruct i as [|i].
  - rewrite Z.add_0_r in He. rewrite He. cbn [bind]. eauto.
  - destruct (KMeans_fit k (Some 20) random_state Xs) as [km|e0];
      [|cbn [bind]; eauto].
    cbn [bind].
    destruct (IH (k + 1) i e) as [e' He']; [lia| |].
    { now replace (k + 1 + Z.of_nat i) with (k + Z.of_nat (S i)) by lia. }
    rewrite He'. cbn [bind]. eauto.
Qed.

(** X11.  With scikit-learn's check of the sample count and a scaler that
    keeps the rows, the automatic mode fails on every RFM table of fewer than
    10 customers: the WCSS of k = 10 cannot be computed, so no k is chosen
    and nothing is clustered, although a manual k within the number of
    customers is not refused by that check. *)
Theorem automatic_k_needs_ten_customers rows random_state :
  KMeans_checks_samples libs ->
  scaler_keeps_rows libs ->
  (length rows < 10)%nat ->
  exists e,
    chosen_k (rfm_frame rows) None random_state = Raise e /\
    run_clustering (rfm_frame rows) None random_state = Raise e.
Proof.
  intros Hkm Hsc Hn.
  assert (Hk : exists e,
            chosen_k (rfm_frame rows) None random_state = Raise e).
  { unfold chosen_k. rewrite build_rfm_features_frame.
    destruct (traverse (fun r => Py.float_of_int (Frequencia r)) rows)
      as [freq|e] eqn:Ef; [|exists e; reflexivity]. cbn [bind].
    destruct (traverse (fun r => Py.float_of_int (- Recencia r)) rows)
      as [r_inv|e] eqn:Er; [|exists e; reflexivity]. cbn [bind].
    destruct (StandardScaler_fit_transform (features_matrix rows freq r_inv))
      as [Xs|e] eqn:EX; [|exists e; reflexivity]. cbn [bind].
    assert (HX : length Xs = length rows).
    { rewrite (Hsc _ _ EX), features_matrix_length; [reflexivity| |];
        eapply traverse_length; eassumption. }
    destruct (wcss_loop_fails Xs random_state 9 2 8 n_samples_error)
      as [e He]; [lia| |].
    { apply Hkm. lia. }
    unfold calcular_wcss. change (Z.to_nat (10 + 1 - 2)) with 9%nat.
    rewrite He. cbn [bind]. eauto. }
  destruct Hk as [e He]. exists e. split; [assumption|].
  unfold run_clustering. now rewrite He.
Qed.

End ChoiceOfK.

(** ** A NaN at an end of the curve *)

Section NaNEnds.

Lemma sub_nan x y :
  is_nan x = true \/ is_nan y = true -> is_nan (x - y) = true.
Proof.
  rewrite !is_nan_spec, FloatAxioms.sub_spec. unfold SF64sub, SFsub.
  intros [-> | ->]; [reflexivity|]. now destruct (Prim2SF x).
Qed.

Lemma mul_nan_l x y : is_nan x = true -> is_nan (x * y) = true.
Proof.
  rewrite !is_nan_spec, FloatAxioms.mul_spec. unfold SF64mul, SFmul.
  now intros ->.
Qed.

Lemma add_nan_l x y : is_nan x = true -> is_nan (x + y) = true.
Proof.
  rewrite !is_nan_spec, FloatAxioms.add_spec. unfold SF64add, SFadd.
  now intros ->.
Qed.

Lemma abs_nan x : is_nan x = true -> is_nan (abs x) = true.
Proof. rewrite !is_nan_spec, FloatAxioms.abs_spec. now intros ->. Qed.

Lemma sqrt_nan x : is_nan x = true -> is_nan (PrimFloat.sqrt x) = true.
Proof.
  rewrite !is_nan_spec, FloatAxioms.sqrt_spec. unfold SF64sqrt, SFsqrt.
  now intros ->.
Qed.

Lemma div_nan_l x y : is_nan x = true -> is_nan (x / y) = true.
Proof.
  rewrite !is_nan_spec, FloatAxioms.div_spec. unfold SF64div, SFdiv.
  now intros ->.
Qed.

Lemma nan_not_infinity x : is_nan x = true -> is_infinity x = false.
Proof.
  rewrite is_nan_spec. intros H. unfold is_infinity.
  now rewrite FloatAxioms.eqb_spec, FloatAxioms.abs_spec, H.
Qed.

Lemma nan_not_negative x : is_nan x = true -> (x <? 0)%float = false.
Proof.
  rewrite is_nan_spec. intros H. now rewrite FloatAxioms.ltb_spec, H.
Qed.

Lemma nan_not_zero x : is_nan x = true -> (x =? 0)%float = false.
Proof.
  rewrite is_nan_spec. intros H. now rewrite FloatAxioms.eqb_spec, H.
Qed.

(** With a NaN at an end of the chord every distance is NaN. *)
Lemma distancia_nan x1 y1 x2 y2 x0 y0 :
  is_nan y1 = true \/ is_nan y2 = true ->
  Z.abs x0 < 2 ^ 63 -> Z.abs x1 < 2 ^ 63 -> Z.abs x2 < 2 ^ 63 ->
  Z.abs (x2 - x1) < 2 ^ 63 -> Z.abs ((x2 - x1) ^ 2) < 2 ^ 63 ->
  exists d, distancia x1 y1 x2 y2 x0 y0 = Ok d /\ is_nan d = true.
Proof.
  intros Hnan H0 H1 H2 Hdx Hdx2. unfold distancia.
  destruct (float_of_int_small x0 H0) as [fx0 ->].
  destruct (float_of_int_small _ Hdx) as [fdx ->].
  destruct (float_of_int_small x2 H2) as [fx2 ->].
  destruct (float_of_int_small x1 H1) as [fx1 ->].
  destruct (float_of_int_small _ Hdx2) as [fdx2 ->].
  cbn [bind].
  assert (Hv : is_nan (y2 - y1) = true) by (apply sub_nan; tauto).
  assert (Hsq : is_nan ((y2 - y1) * (y2 - y1)) = true)
    by now apply mul_nan_l.
  unfold Py.pow2. rewrite (nan_not_infinity _ Hsq). cbn [andb bind].
  assert (Hs : is_nan ((y2 - y1) * (y2 - y1) + fdx2) = true)
    by now apply add_nan_l.
  unfold Py.math_sqrt. rewrite (nan_not_negative _ Hs). cbn [bind].
  unfold Py.truediv. rewrite (nan_not_zero _ (sqrt_nan _ Hs)).
  eexists. split; [reflexivity|].
  apply div_nan_l, abs_nan, sub_nan. left.
  apply add_nan_l, sub_nan. left. now apply mul_nan_l.
Qed.

Lemma distancias_from_nan x1 y1 x2 y2 k_min wcss :
  is_nan y1 = true \/ is_nan y2 = true ->
  Z.abs x1 < 2 ^ 63 -> Z.abs x2 < 2 ^ 63 ->
  Z.abs (x2 - x1) < 2 ^ 63 -> Z.abs ((x2 - x1) ^ 2) < 2 ^ 63 ->
  - 2 ^ 62 <= k_min ->
  forall i, k_min + Z.of_nat (i + length wcss) <= 2 ^ 62 ->
  exists ds, distancias_from x1 y1 x2 y2 k_min i wcss = Ok ds /\
    length ds = length wcss /\ Forall (fun d => is_nan d = true) ds.
Proof.
  intros Hnan H1 H2 Hdx Hdx2 Hlo.
  induction wcss as [|y rest IH]; intros i Hhi; cbn [distancias_from].
  - exists []. repeat split. constructor.
  - cbn [length] in Hhi.
    destruct (distancia_nan x1 y1 x2 y2 (k_min + Z.of_nat i) y)
      as (d & -> & Hd); try assumption; [lia|].
    destruct (IH (S i)) as (ds & -> & Hlen & Hds); [lia|].
    cbn [bind]. exists (d :: ds). split; [reflexivity|].
    split; [cbn; now rewrite Hlen|]. now constructor.
Qed.

(** X12.  A NaN as the first or the last WCSS value is not refused: every
    distance is then NaN, the first of them counts as the maximum, and the
    Knee Selector returns [k_min] (range and length within 2^30). *)
Theorem knee_nan_end_gives_k_min wcss k_min k_max y1 :
  nth_error wcss 0 = Some y1 ->
  is_nan y1 = true \/ is_nan (last wcss y1) = true ->
  - 2 ^ 30 <= k_min <= 2 ^ 30 ->
  - 2 ^ 30 <= k_max <= 2 ^ 30 ->
  Z.of_nat (length wcss) <= 2 ^ 30 ->
  get_numero_otimo_clusters wcss k_min k_max = Ok k_min.
Proof.
  intros Hy1 Hnan Hmin Hmax Hlen.
  destruct wcss as [|y rest]; [discriminate|]. injection Hy1 as ->.
  assert (P30 : 2 ^ 30 = 1073741824) by reflexivity.
  assert (P62 : 2 ^ 62 = 4611686018427387904) by reflexivity.
  assert (P63 : 2 ^ 63 = 9223372036854775808) by reflexivity.
  rewrite P30 in *.
  destruct (distancias_from_nan k_min y1 k_max (last (y1 :: rest) y1) k_min
              (y1 :: rest) Hnan) with (i := 0%nat)
    as (ds & Hds & Hl & Hall); rewrite ?P62, ?P63; try lia.
  { rewrite Z.pow_2_r. nia. }
  unfold get_numero_otimo_clusters, distancias. rewrite Hds. cbn [bind].
  destruct ds as [|d ds]; [discriminate|].
  inversion Hall as [|? ? Hd _]; subst.
  cbn [np_argmax]. rewrite Hd. cbn [bind]. f_equal. lia.
Qed.

End NaNEnds.

(** ** The automatic choice of k returns *)

Section AutomaticReturns.

Context {libs : Libraries}.

(** When every fit succeeds with an inertia that [P] holds of, so does
    [wcss_loop], and [P] holds of its values. *)
Lemma wcss_loop_returns (P : float -> Prop) Xs random_state n : forall k,
  (forall i, (i < n)%nat ->
     exists km, KMeans_fit (k + Z.of_nat i) (Some 20) random_state Xs = Ok km
                /\ P (inertia_ km)) ->
  exists wcss, wcss_loop Xs random_state k n = Ok wcss /\
    length wcss = n /\ Forall P wcss.
Proof.
  induction n as [|n IH]; intros k Hfit; cbn [wcss_loop].
  - exists []. split; [reflexivity|]. split; [reflexivity|constructor].
  - destruct (Hfit 0%nat) as (km & Hkm & HP); [lia|].
    rewrite Z.add_0_r in Hkm. rewrite Hkm. cbn [bind].
    destruct (IH (k + 1)) as (rest & -> & Hlen & Hall).
    { intros i Hi. destruct (Hfit (S i)) as (km' & Hkm' & HP'); [lia|].
      exists km'. split; [|assumption].
      now replace (k + 1 + Z.of_nat i) with (k + Z.of_nat (S i)) by lia. }
    cbn [bind]. exists (inertia_ km :: rest).
    split; [reflexivity|]. split; [cbn; now rewrite Hlen|now constructor].
Qed.

(** X20.  The automatic choice of k does not fail in the knee: when the
    features of the RFM table are built and each of the nine fits for k =
    2..10 succeeds with an inertia of magnitude at most 2^500, a k between 2
    and 10 is chosen. *)
Theorem automatic_k_returns rfm_table random_state Xs out :
  build_rfm_features rfm_table = Ok (Xs, out) ->
  (forall k, 2 <= k <= 10 ->
     exists km, KMeans_fit k (Some 20) random_state Xs = Ok km /\
       (abs (inertia_ km) <=? wcss_bound)%float = true) ->
  exists k, chosen_k rfm_table None random_state = Ok k /\ 2 <= k <= 10.
Proof.
  intros HXs Hfit. unfold chosen_k. rewrite HXs. cbn [bind].
  unfold calcular_wcss. change (Z.to_nat (10 + 1 - 2)) with 9%nat.
  destruct (wcss_loop_returns
              (fun y => (abs y <=? wcss_bound)%float = true)
              Xs random_state 9 2) as (wcss & -> & Hlen & Hall).
  { intros i Hi. apply Hfit. lia. }
  cbn [bind].
  assert (Hmod : moderate_inputs wcss 2 10 = true).
  { unfold moderate_inputs. apply andb_true_iff. split; [reflexivity|].
    apply forallb_forall. now apply Forall_forall. }
  destruct (knee_returns wcss 2 10) as [ds Hds];
    [lia|rewrite Hlen; reflexivity|assumption|].
  destruct wcss as [|y1 rest]; [discriminate|].
  pose proof (knee_cases y1 rest 2 10) as Hc. cbv zeta in Hc.
  rewrite Hds in Hc. destruct Hc as (Hl & _ & i & Hi & E).
  exists (2 + Z.of_nat i). split; [assumption|].
  apply first_max_lt in Hi. rewrite Hl, Hlen in Hi. lia.
Qed.

End AutomaticReturns.

(** ** The labels of the clusters *)

Section LabelProps.

Context {py : Builtins}.

Lemma traverse_cell_int c : forall ids,
  traverse cell_int c = Ok ids -> c = map VInt ids.
Proof.
  induction c as [|v c IH]; intros ids H; cbn [traverse] in H.
  - now injection H as <-.
  - apply bind_ok in H as (z & Hz & H).
    apply bind_ok in H as (zs & Hzs & H). injection H as <-.
    destruct v; try discriminate. injection Hz as ->.
    cbn [map]. f_equal. now apply IH.
Qed.

Lemma traverse_cell_int_map ids : traverse cell_int (map VInt ids) = Ok ids.
Proof.
  induction ids as [|z ids IH]; [reflexivity|].
  cbn [map traverse cell_int bind]. now rewrite IH.
Qed.

Lemma existsb_eqb (g : Z) l : existsb (Z.eqb g) l = true <-> In g l.
Proof.
  rewrite existsb_exists. split.
  - intros (x & Hx & E). apply Z.eqb_eq in E. now subst.
  - intros H. exists g. split; [assumption|apply Z.eqb_refl].
Qed.

(** The ids reported missing: those of the profile with no label, once each,
    ascending. *)
Lemma missing_ids_spec pids lids :
  (forall g, In g (missing_ids pids lids) <-> In g pids /\ ~ In g lids) /\
  NoDup (missing_ids pids lids) /\
  StronglySorted (fun a b => Z.leb a b = true) (missing_ids pids lids).
Proof.
  unfold missing_ids.
  set (l := filter _ (nodup Z.eq_dec pids)).
  assert (Hl : forall g, In g l <-> In g pids /\ ~ In g lids).
  { intros g. unfold l. rewrite filter_In, nodup_In, negb_true_iff.
    rewrite <- (existsb_eqb g lids). destruct (existsb (Z.eqb g) lids); intuition congruence. }
  split; [|split].
  - intros g. rewrite <- Hl. split; intros H.
    + eapply Permutation_in; [apply sort_by_perm|exact H].
    + eapply Permutation_in; [symmetry; apply sort_by_perm|exact H].
  - eapply Permutation_NoDup; [symmetry; apply sort_by_perm|].
    unfold l. apply NoDup_filter, NoDup_nodup.
  - apply sort_by_sorted.
    + intros a b H. apply Z.leb_gt in H. apply Z.leb_le. lia.
    + intros a b c H1 H2. apply Z.leb_le in H1, H2. apply Z.leb_le. lia.
Qed.

(** What a call that returns went through. *)
Lemma build_cluster_labels_ok prof js labels :
  build_cluster_labels prof js = Ok labels ->
  exists d items pids,
    js = JDict d /\
    dict_get "clusters" d = Some (JList items) /\
    traverse label_row items = Ok labels /\
    labels <> [] /\
    get_col "ClusterId" prof = Ok (map VInt pids) /\
    missing_ids pids (map ClusterId labels) = [].
Proof.
  unfold build_cluster_labels. intros H.
  apply bind_ok in H as (has & Hhas & H).
  destruct has; [|discriminate]. cbn [negb] in H.
  apply bind_ok in H as (clusters & Hcl & H).
  destruct js as [| | | | |l|d]; try discriminate.
  cbn [py_getitem] in Hcl.
  destruct (dict_get "clusters" d) as [x|] eqn:Ed; [|discriminate].
  injection Hcl as ->.
  destruct clusters as [| | | | |items|]; try discriminate.
  apply bind_ok in H as (rows & Hrows & H). cbv zeta in H.
  apply bind_ok in H as (pc & Hpc & H).
  apply bind_ok in H as (pids & Hpids & H).
  apply bind_ok in H as (lids & Hlids & H).
  destruct rows as [|row rows]; [discriminate|].
  assert (El : lids = map ClusterId (row :: rows)) by congruence.
  subst lids. clear Hlids. revert H.
  destruct (missing_ids pids (map ClusterId (row :: rows))) eqn:Em;
    [|discriminate].
  intros H. injection H as <-.
  exists d, items, pids. apply traverse_cell_int in Hpids. subst pc.
  repeat (split; [assumption || reflexivity || discriminate|]).
  assumption.
Qed.


(** X14.  An answer that is a dict without the key [clusters], or whose
    [clusters] is not a list, is refused with the [ValueError] on the invalid
    JSON, whatever the profile. *)
Theorem labels_reject_malformed prof d :
  (forall items, dict_get "clusters" d <> Some (JList items)) ->
  build_cluster_labels prof (JDict d) = Raise (ValueError invalid_json).
Proof.
  intros H. unfold build_cluster_labels. cbn [py_in py_getitem].
  destruct (dict_get "clusters" d) as [[| | | | |items|]|];
    cbn [bind negb]; try reflexivity.
  now destruct (H items).
Qed.

(** X15.  An empty list of clusters is not refused as such: the table of
    labels built from no row has no column, and reading its ClusterId raises
    [KeyError] where the [ValueError] on missing labels was meant. *)
Theorem labels_empty_list_key_error prof d pids :
  dict_get "clusters" d = Some (JList []) ->
  get_col "ClusterId" prof = Ok (map VInt pids) ->
  build_cluster_labels prof (JDict d) = Raise (KeyError "ClusterId").
Proof.
  intros Hd Hp. unfold build_cluster_labels. cbn [py_in py_getitem].
  rewrite Hd. cbn [bind negb traverse]. rewrite Hp. cbn [bind].
  now rewrite traverse_cell_int_map.
Qed.

(** X17.  When the rows were built and a ClusterId of the profile has no
    label, the call raises the [ValueError] on missing labels, whose message
    lists the ClusterIds of the profile without a label, each once and in
    ascending order. *)
Theorem labels_missing_reported prof d items labels pids g :
  dict_get "clusters" d = Some (JList items) ->
  traverse label_row items = Ok labels ->
  labels <> [] ->
  get_col "ClusterId" prof = Ok (map VInt pids) ->
  In g pids ->
  ~ In g (map ClusterId labels) ->
  exists missing,
    build_cluster_labels prof (JDict d)
      = Raise (ValueError (missing_labels missing)) /\
    (forall h, In h missing <->
               In h pids /\ ~ In h (map ClusterId labels)) /\
    NoDup missing /\
    StronglySorted (fun a b => a <= b) missing.
Proof.
  intros Hd Hrows Hne Hp Hg Hout.
  exists (missing_ids pids (map ClusterId labels)).
  destruct (missing_ids_spec pids (map ClusterId labels))
    as (Hin & Hnd & Hsorted).
  split; [|split; [assumption|split; [assumption|]]].
  - unfold build_cluster_labels. cbn [py_in py_getitem]. rewrite Hd.
    cbn [bind negb]. rewrite Hrows. cbn [bind]. rewrite Hp. cbn [bind].
    rewrite traverse_cell_int_map. cbn [bind].
    destruct labels as [|row rows]; [congruence|]. cbn [bind].
    destruct (missing_ids pids (map ClusterId (row :: rows))) eqn:Em;
      [|reflexivity].
    exfalso. exact (proj2 (Hin g) (conj Hg Hout)).
  - clear - Hsorted. induction Hsorted as [|a l _ IH Ha]; constructor.
    + assumption.
    + eapply Forall_impl; [|eassumption]. intros b H. now apply Z.leb_le.
Qed.

(** X18.  Nothing but the cover is checked: when the rows were built, there
    is at least one, and every ClusterId of the profile has a label, the
    rows are returned as they are, also with several labels for one cluster
    or labels for clusters the profile does not have. *)
Theorem labels_accept_duplicates prof d items labels pids :
  dict_get "clusters" d = Some (JList items) ->
  traverse label_row items = Ok labels ->
  labels <> [] ->
  get_col "ClusterId" prof = Ok (map VInt pids) ->
  (forall g, In g pids -> In g (map ClusterId labels)) ->
  build_cluster_labels prof (JDict d) = Ok labels.
Proof.
  intros Hd Hrows Hne Hp Hall.
  unfold build_cluster_labels. cbn [py_in py_getitem]. rewrite Hd.
  cbn [bind negb]. rewrite Hrows. cbn [bind]. rewrite Hp. cbn [bind].
  rewrite traverse_cell_int_map. cbn [bind].
  destruct labels as [|row rows]; [congruence|]. cbn [bind].
  destruct (missing_ids pids (map ClusterId (row :: rows))) as [|h m] eqn:Em;
    [reflexivity|].
  exfalso.
  assert (H : In h (missing_ids pids (map ClusterId (row :: rows))))
    by (rewrite Em; now left).
  apply missing_ids_spec in H as [Hin Hout]. apply Hout. now apply Hall.
Qed.

End LabelProps.

Section LabelledCustomers.

Context {libs : Libraries} {py : Builtins}.

(** X19.  When the joint clustering succeeds and the labels built against
    its profile are accepted, every customer of the per-customer table has a
    label for its ClusterId: the left join of the labels on ClusterId leaves
    no customer without a segment name. *)
Theorem every_customer_labelled rows n_clusters random_state enriched prof
    js labels :
  cluster_rfm_joint (rfm_frame rows) n_clusters random_state
    = Ok (enriched, prof) ->
  build_cluster_labels prof js = Ok labels ->
  exists ids,
    get_col "ClusterId" enriched = Ok (map VInt ids) /\
    length ids = length rows /\
    forall i g, nth_error ids i = Some g ->
      exists l, In l labels /\ ClusterId l = g.
Proof.
  intros Hrun Hlab.
  apply cluster_rfm_joint_ok in Hrun
    as (freq & r_inv & Xs & km & rec & _ & _ & _ & _ & Hl & _ & _ & -> & ->).
  apply build_cluster_labels_ok in Hlab
    as (d & items & pids & -> & _ & _ & _ & Hp & Hm).
  exists (labels_ km). split; [reflexivity|]. split; [assumption|].
  intros i g Hg. apply nth_error_In in Hg.
  assert (Hpids : pids = ranked_keys (labels_ km) Xs).
  { cbn in Hp. injection Hp as Hp.
    clear - Hp. revert pids Hp.
    induction (ranked_keys (labels_ km) Xs) as [|k ks IH]; intros [|p ps] Hp;
      try discriminate; [reflexivity|].
    cbn [map] in Hp. injection Hp as -> Hp. f_equal. now apply IH. }
  subst pids.
  destruct (in_dec Z.eq_dec g (map ClusterId labels)) as [Hin|Hout].
  - apply in_map_iff in Hin as (l & Hl' & Hin). eauto.
  - exfalso.
    assert (H : In g (missing_ids (ranked_keys (labels_ km) Xs)
                        (map ClusterId labels))).
    { apply missing_ids_spec. split; [|assumption].
      now apply ranked_keys_In. }
    rewrite Hm in H. contradiction.
Qed.

End LabelledCustomers.

Section LabelRows.

Context {py : Builtins}.

Lemma traverse_first_raise {A B} (f : A -> result B) (l : list A) : forall i a e,
  nth_error l i = Some a -> f a = Raise e ->
  (forall j b, (j < i)%nat -> nth_error l j = Some b ->
               exists c, f b = Ok c) ->
  traverse f l = Raise e.
Proof.
  induction l as [|x l IH]; intros i a e Hi He Hbefore;
    [destruct i; discriminate|].
  cbn [traverse]. destruct i as [|i]; cbn [nth_error] in Hi.
  - injection Hi as ->. now rewrite He.
  - destruct (Hbefore 0%nat x) as [c Hc]; [lia|reflexivity|].
    rewrite Hc. cbn [bind].
    rewrite (IH i a e Hi He); [reflexivity|].
    intros j b Hj Hb. apply (Hbefore (S j) b); [lia|assumption].
Qed.

(** X16.  The rows are built in the order of the list, and all or none: the
    call raises what the first item raised whose row cannot be built (a
    missing ClusterId, SegmentoNome or SegmentoDescricao, a ClusterId that is
    no integer, an item that is no dict), before the profile is read. *)
Theorem labels_first_bad_item prof d items i item e :
  dict_get "clusters" d = Some (JList items) ->
  nth_error items i = Some item ->
  label_row item = Raise e ->
  (forall j it, (j < i)%nat -> nth_error items j = Some it ->
                exists l, label_row it = Ok l) ->
  build_cluster_labels prof (JDict d) = Raise e.
Proof.
  intros Hd Hi He Hbefore.
  unfold build_cluster_labels. cbn [py_in py_getitem]. rewrite Hd.
  cbn [bind negb].
  now rewrite (traverse_first_raise label_row items i item e Hi He Hbefore).
Qed.

End LabelRows.

(** ** Runs on the sample *)

Section ExtraRuns.

Lemma customer_rank_is_cluster_rank_witness :
  exists labels keys ranks,
    get_col "ClusterId" sample_enriched = Ok (map VInt labels) /\
    get_col "ClusterId" sample_profile = Ok (map VInt keys) /\
    get_col "RankQualidade" sample_enriched = Ok (map VInt ranks) /\
    forall i g r, nth_error labels i = Some g -> nth_error ranks i = Some r ->
      0 <= r < Z.of_nat (length keys) /\
      nth_error keys (Z.to_nat r) = Some g.
Proof.
  destruct (@customer_rank_is_cluster_rank sample_libs sample_rows 2 42
              sample_enriched sample_profile sample_run_ok)
    as (labels & keys & ranks & Hl & Hk & _ & Hr & _ & _ & _ & Hspec).
  exists labels, keys, ranks. repeat (split; [assumption|]). exact Hspec.
Defined.

Lemma profile_row_per_cluster_witness :
  exists labels keys,
    get_col "ClusterId" sample_enriched = Ok (map VInt labels) /\
    get_col "ClusterId" sample_profile = Ok (map VInt keys) /\
    NoDup keys /\
    get_col "Clientes" sample_profile
      = Ok (map (fun g => VInt (Z.of_nat (occurrences g labels))) keys).
Proof.
  destruct (@profile_row_per_cluster sample_libs sample_rows 2 42
              sample_enriched sample_profile sample_run_ok)
    as (labels & keys & Hl & Hk & _ & Hnd & _ & Hc).
  exists labels, keys. repeat (split; [assumption|]). exact Hc.
Defined.

Lemma joint_keeps_rfm_columns_witness :
  get_col "Receita" sample_enriched
    = get_col "Receita" (rfm_frame sample_rows) /\
  exists c, get_col "Receita" sample_enriched = Ok c /\
            length c = length sample_rows.
Proof.
  apply (@joint_keeps_rfm_columns sample_libs sample_rows 2 42
           sample_enriched sample_profile sample_run_ok "Receita"%string).
  simpl. tauto.
Defined.




Lemma automatic_k_in_range_witness :
  exists r k,
    @run_clustering curve_libs (rfm_frame sample_rows) None 42 = Ok r /\
    2 <= k <= 10 /\
    @cluster_rfm_joint curve_libs (rfm_frame sample_rows) k 42 = Ok r.
Proof.
  destruct (@run_clustering curve_libs (rfm_frame sample_rows) None 42)
    as [r|e] eqn:E; [|vm_compute in E; discriminate].
  destruct (@automatic_k_in_range curve_libs (rfm_frame sample_rows) 42 r E)
    as (Xs & out & wcss & k & _ & _ & _ & _ & Hk & Hrun & _).
  exists r, k. split; [reflexivity|]. split; assumption.
Defined.

(** Six customers: the automatic mode fails where k = 2 succeeds. *)
Lemma automatic_k_needs_ten_customers_witness :
  (exists e,
     @chosen_k sample_libs (rfm_frame sample_rows) None 42 = Raise e /\
     @run_clustering sample_libs (rfm_frame sample_rows) None 42 = Raise e) /\
  @run_clustering sample_libs (rfm_frame sample_rows) (Some 2) 42
    = Ok (sample_enriched, sample_profile).
Proof.
  split; [|exact sample_run_ok].
  apply (@automatic_k_needs_ten_customers sample_libs sample_rows 42).
  - exact sample_libs_checks_samples.
  - exact sample_libs_keeps_rows.
  - simpl. lia.
Defined.


Lemma labels_reject_malformed_witness :
  @build_cluster_labels sample_builtins sample_profile
    (JDict [("clusters"%string, JStr "nenhum")])
  = Raise (ValueError invalid_json).
Proof.
  apply (@labels_reject_malformed sample_builtins).
  intros items. vm_compute. discriminate.
Defined.

Lemma labels_missing_reported_witness :
  exists missing,
    @build_cluster_labels sample_builtins sample_profile
      (JDict partial_answer)
      = Raise (ValueError (missing_labels missing)) /\
    (forall h, In h missing <-> In h [1; 0] /\ ~ In h [0]).
Proof.
  destruct (@labels_missing_reported sample_builtins sample_profile
              partial_answer
              [JDict [("ClusterId"%string, JInt 0);
                      ("SegmentoNome"%string, JStr "Adormecidos");
                      ("SegmentoDescricao"%string, JStr "Compraram pouco.")]]
              [{| ClusterId := 0; SegmentoNome := "Adormecidos";
                  SegmentoDescricao := "Compraram pouco.";
                  Estrategias := JList [] |}]
              [1; 0] 1)
    as (missing & Hm & Hin & _).
  - reflexivity.
  - reflexivity.
  - discriminate.
  - reflexivity.
  - simpl. tauto.
  - simpl. lia.
  - exists missing. split; assumption.
Defined.

Lemma labels_accept_duplicates_witness :
  exists labels,
    @build_cluster_labels sample_builtins sample_profile
      (JDict sample_answer) = Ok labels /\
    map ClusterId labels = [0; 1; 0; 7].
Proof.
  eexists. split.
  - apply (@labels_accept_duplicates sample_builtins sample_profile
             sample_answer sample_items _ [1; 0]).
    + reflexivity.
    + vm_compute. reflexivity.
    + discriminate.
    + reflexivity.
    + simpl. tauto.
  - reflexivity.
Defined.

Lemma every_customer_labelled_witness :
  exists labels ids,
    @build_cluster_labels sample_builtins sample_profile (JDict sample_answer)
      = Ok labels /\
    get_col "ClusterId" sample_enriched = Ok (map VInt ids) /\
    length ids = length sample_rows /\
    forall i g, nth_error ids i = Some g ->
      exists l, In l labels /\ ClusterId l = g.
Proof.
  destruct (@build_cluster_labels sample_builtins sample_profile
              (JDict sample_answer)) as [labels|e] eqn:E;
    [|vm_compute in E; discriminate].
  destruct (@every_customer_labelled sample_libs sample_builtins sample_rows
              2 42 sample_enriched sample_profile (JDict sample_answer) labels
              sample_run_ok E) as (ids & Hi & Hl & Hall).
  exists labels, ids. split; [reflexivity|]. repeat split; assumption.
Defined.

Lemma labels_empty_list_key_error_witness :
  @build_cluster_labels sample_builtins sample_profile
    (JDict [("clusters"%string, JList [])])
  = Raise (KeyError "ClusterId").
Proof.
  apply (@labels_empty_list_key_error sample_builtins sample_profile
           [("clusters"%string, JList [])] [1; 0]); reflexivity.
Defined.


Lemma recencia_column_required_witness :
  @build_rfm_features sample_libs no_recencia = Raise (KeyError "Recencia") /\
  @cluster_rfm_joint sample_libs no_recencia 2 42
    = Raise (KeyError "Recencia").
Proof.
  destruct (@recencia_column_required sample_libs no_recencia 2 42)
    as (H1 & H2 & _); [reflexivity|].
  split; assumption.
Defined.

Lemma knee_nan_end_gives_k_min_witness :
  get_numero_otimo_clusters nan_curve 2 4 = Ok 2.
Proof.
  apply (knee_nan_end_gives_k_min nan_curve 2 4 nan).
  - reflexivity.
  - left. reflexivity.
  - lia.
  - lia.
  - simpl. lia.
Defined.

Lemma labels_first_bad_item_witness :
  @build_cluster_labels sample_builtins sample_profile
    (JDict nameless_answer)
  = Raise (KeyError "SegmentoNome").
Proof.
  apply (@labels_first_bad_item sample_builtins sample_profile
           nameless_answer
           [JDict [("ClusterId"%string, JInt 0);
                   ("SegmentoNome"%string, JStr "Adormecidos");
                   ("SegmentoDescricao"%string, JStr "Compraram pouco.")];
            JDict [("ClusterId"%string, JInt 1)]]
           1 (JDict [("ClusterId"%string, JInt 1)])).
  - reflexivity.
  - reflexivity.
  - reflexivity.
  - intros [|j] it Hj Hit; [|lia]. injection Hit as <-.
    eexists. reflexivity.
Defined.

Lemma automatic_k_returns_witness :
  exists k,
    @chosen_k curve_libs (rfm_frame sample_rows) None 42 = Ok k /\
    2 <= k <= 10.
Proof.
  destruct (@build_rfm_features curve_libs (rfm_frame sample_rows))
    as [[Xs out]|e] eqn:E; [|vm_compute in E; discriminate].
  apply (@automatic_k_returns curve_libs (rfm_frame sample_rows) 42 Xs out E).
  intros k Hk.
  assert (Hc : k = 2 \/ k = 3 \/ k = 4 \/ k = 5 \/ k = 6 \/ k = 7 \/ k = 8
               \/ k = 9 \/ k = 10) by lia.
  destruct Hc as [->|[->|[->|[->|[->|[->|[->|[->| ->]]]]]]]];
    (eexists; split; [reflexivity|vm_compute; reflexivity]).
Defined.

End ExtraRuns.
